(** * Banking system: transfer engine and read-side access policy

    Shallow embedding of [src/controllers/transaction.js] (the transfer
    handler [router.post('/')] and the single-transaction read
    [router.get('/:transaction')]) and of [src/controllers/account.js]
    (the single-account read [router.get('/:accountId')]).

    The Prisma database is a record of two finite maps (bank accounts and
    transactions by id) plus the auto-increment counter of transaction ids.
    Amounts and balances are integer-valued JavaScript numbers; the
    handler's [Number(..) - Number(..)] and [Number(..) + Number(..)] round
    their result to a double as JavaScript does ([js_sub], [js_add]).

    The transfer handler is an [async] function with five [await]ed
    persistence calls.  It is modelled as a state machine whose states are
    the points where the handler is suspended on an [await]; one [step]
    performs the awaited persistence call and the synchronous code that
    follows it.  Each call may throw (connection failure, timeout, Prisma
    error): the [fault] flag of a step says whether it does, and a thrown
    call ends the handler with [next(err)], i.e. the generic 500 answer.
    Several handlers may be suspended at the same time; a schedule picks
    which one resumes next. *)

From Stdlib Require Import ZArith Lia.
From stdpp Require Import base gmap list strings sorting.

Open Scope Z_scope.

(** ** Data model (Prisma models [Bank_Account], [Transaction]) *)

Record Bank_Account := mkAccount {
  acc_id : Z;
  user_id : Z;
  balance : Z
}.

Record Transaction := mkTransaction {
  tx_id : Z;
  source_account_id : Z;
  destination_account_id : Z;
  amount : Z
}.

Record DB := mkDB {
  bank_accounts : gmap Z Bank_Account;
  transactions : gmap Z Transaction;
  next_tx_id : Z
}.

(** [req.user] as set by the auth middleware: the token's id and role. *)
Record Caller := mkCaller {
  caller_id : Z;
  role : string
}.

(** [validatedData] of the transfer handler. *)
Record TransferBody := mkBody {
  body_source : Z;
  body_destination : Z;
  body_amount : Z
}.

(** The four domain failures of the transfer handler. *)
Inductive DomainError :=
| AccountNotFound        (* 409 "Invalid account id" *)
| SameAccountTransfer    (* 409 "Cannot do transaction between same account" *)
| NotOwner               (* 403 "The source account doesn't belong to this user" *)
| InsufficientBalance.   (* 409 "Insufficient balance" *)

Inductive TransferResponse :=
| Created (tx : Transaction) (source_account destination_account : Bank_Account)
| Failed (e : DomainError)
| ValidationFailed       (* 400 with the validator's details *)
| InternalError.         (* next(err): 500 "Internal server error" *)

Definition status_of (r : TransferResponse) : Z :=
  match r with
  | Created _ _ _ => 201
  | Failed NotOwner => 403
  | Failed _ => 409
  | ValidationFailed => 400
  | InternalError => 500
  end.

(** ** Collaborators *)

(** Modelled from the spec: [validateTransaction] of
    [src/validation/transaction.js], which is not part of the sources.  The
    spec (sections 4.1 and 6) says it requires integer account ids and a
    positive finite amount; ids are integers by construction here, so the
    check left is the positivity of the amount. *)
Definition validateTransaction (b : TransferBody) : bool :=
  0 <? body_amount b.

(** [prisma.bank_Account.findUnique({where: {id}})] *)
Definition find_account (d : DB) (id : Z) : option Bank_Account :=
  bank_accounts d !! id.

(** [prisma.transaction.create({data})]: the id is auto-assigned. *)
Definition create_transaction (d : DB) (src dst amt : Z) : DB * Transaction :=
  let tx := mkTransaction (next_tx_id d) src dst amt in
  (mkDB (bank_accounts d) (<[next_tx_id d := tx]> (transactions d)) (next_tx_id d + 1), tx).

(** [prisma.bank_Account.update({where: {id}, data: {balance}})]: throws
    (Prisma error P2025) when no record has that id. *)
Definition update_balance (d : DB) (id bal : Z) : option (DB * Bank_Account) :=
  match bank_accounts d !! id with
  | None => None
  | Some a =>
      let a' := mkAccount (acc_id a) (user_id a) bal in
      Some (mkDB (<[id := a']> (bank_accounts d)) (transactions d) (next_tx_id d), a')
  end.

(** ** JavaScript arithmetic

    JavaScript numbers are IEEE-754 doubles.  The model covers the
    integer-valued ones: a [Z] stands for a JavaScript number with that
    value, so [Number(x)] is [x] itself.  The sum or difference of two such
    numbers is the exact result rounded to the nearest double, ties to the
    even significand: integers up to [2^53] in magnitude are exact; above,
    a result of binary logarithm [k] is rounded to a multiple of
    [2^(k-52)].  Results beyond the largest double (JavaScript gives
    [Infinity]) and fractional numbers are outside the model. *)
Definition js_round_pos (x : Z) : Z :=
  if x <=? 2 ^ 53 then x
  else
    let u := 2 ^ (Z.log2 x - 52) in
    let q := x / u in
    let r := x mod u in
    let q' := match Z.compare (2 * r) u with
              | Lt => q
              | Gt => q + 1
              | Eq => if Z.even q then q else q + 1
              end in
    q' * u.

Definition js_round (x : Z) : Z :=
  if x <? 0 then - js_round_pos (- x) else js_round_pos x.

(** [x - y] and [x + y] on JavaScript numbers. *)
Definition js_sub (x y : Z) : Z := js_round (x - y).
Definition js_add (x y : Z) : Z := js_round (x + y).

(** ** The transfer handler *)

(** The [if / else if] chain of lines 203-223, run on the two records
    fetched by lines 191-201. *)
Definition transfer_checks (c : Caller) (b : TransferBody)
    (getSourceAccInfo getDestAccInfo : option Bank_Account)
    : DomainError + (Bank_Account * Bank_Account) :=
  match getSourceAccInfo, getDestAccInfo with
  | Some src, Some dst =>
      if body_source b =? body_destination b then inl SameAccountTransfer
      else if negb (caller_id c =? user_id src) then inl NotOwner
      else if body_amount b >? balance src then inl InsufficientBalance
      else inr (src, dst)
  | _, _ => inl AccountNotFound
  end.

(** Suspension points of the handler. *)
Inductive Handler :=
| H_findSource (c : Caller) (b : TransferBody)
| H_findDest (c : Caller) (b : TransferBody) (getSourceAccInfo : option Bank_Account)
| H_create (c : Caller) (b : TransferBody) (src dst : Bank_Account)
| H_updateSource (c : Caller) (b : TransferBody) (src dst : Bank_Account)
    (transaction : Transaction)
| H_updateDest (c : Caller) (b : TransferBody) (src dst : Bank_Account)
    (transaction : Transaction) (updateSourceAccBalance : Bank_Account)
| H_done (r : TransferResponse).

(** Synchronous prefix of the handler (lines 176-188). *)
Definition start (c : Caller) (b : TransferBody) : Handler :=
  if validateTransaction b then H_findSource c b else H_done ValidationFailed.

(** Resume a suspended handler: the awaited call runs against [d] (or
    throws when [fault] is set), then the handler runs to its next [await]. *)
Definition step (fault : bool) (d : DB) (h : Handler) : DB * Handler :=
  match h with
  | H_done r => (d, H_done r)
  | _ =>
    if fault then (d, H_done InternalError) else
    match h with
    | H_findSource c b => (d, H_findDest c b (find_account d (body_source b)))
    | H_findDest c b osrc =>
        match transfer_checks c b osrc (find_account d (body_destination b)) with
        | inl e => (d, H_done (Failed e))
        | inr (src, dst) => (d, H_create c b src dst)
        end
    | H_create c b src dst =>
        let (d', tx) := create_transaction d (body_source b)
                          (body_destination b) (body_amount b) in
        (d', H_updateSource c b src dst tx)
    | H_updateSource c b src dst tx =>
        match update_balance d (body_source b) (js_sub (balance src) (body_amount b)) with
        | None => (d, H_done InternalError)
        | Some (d', src') => (d', H_updateDest c b src dst tx src')
        end
    | H_updateDest c b src dst tx src' =>
        match update_balance d (body_destination b) (js_add (balance dst) (body_amount b)) with
        | None => (d, H_done InternalError)
        | Some (d', dst') => (d', H_done (Created tx src' dst'))
        end
    | H_done r => (d, H_done r)
    end
  end.

(** Run one handler alone; [faults] lists, call by call, whether the
    persistence call throws (missing entries: it does not). *)
Fixpoint run_alone (faults : list bool) (fuel : nat) (d : DB) (h : Handler)
    : DB * Handler :=
  match fuel with
  | O => (d, h)
  | S n =>
      match h with
      | H_done _ => (d, h)
      | _ =>
          let '(f, rest) := match faults with
                            | [] => (false, [])
                            | f :: rest => (f, rest)
                            end in
          let (d', h') := step f d h in
          run_alone rest n d' h'
      end
  end.

Definition response_of (h : Handler) : TransferResponse :=
  match h with
  | H_done r => r
  | _ => InternalError
  end.

(** One POST /api/v1/transactions request handled with no other request in
    flight. Five awaits, so five steps always reach [H_done]. *)
Definition transfer_with (faults : list bool) (d : DB) (c : Caller) (b : TransferBody)
    : DB * TransferResponse :=
  let (d', h) := run_alone faults 5 d (start c b) in (d', response_of h).

Definition transfer (d : DB) (c : Caller) (b : TransferBody) : DB * TransferResponse :=
  transfer_with [] d c b.

(** ** Concurrent requests

    Requests are handled by one event loop; a handler only yields at an
    [await].  A configuration is the database and the handlers in flight;
    a scheduling event [(i, fault)] resumes handler [i]. *)

Record Config := mkConfig {
  db : DB;
  handlers : list Handler
}.

Definition sched_step (cfg : Config) (ev : nat * bool) : Config :=
  let (i, fault) := ev in
  match handlers cfg !! i with
  | None => cfg
  | Some h =>
      let (d', h') := step fault (db cfg) h in
      mkConfig d' (<[i := h']> (handlers cfg))
  end.

Definition run_schedule (cfg : Config) (sched : list (nat * bool)) : Config :=
  fold_left sched_step sched cfg.

(** ** Read-side handlers *)

Inductive ReadResponse (A : Type) :=
| ReadOk (x : A)          (* 200 *)
| ReadNotFound            (* 404 *)
| ReadForbidden           (* 403 *)
| ReadInternalError.      (* 500 *)
Arguments ReadOk {A} x.
Arguments ReadNotFound {A}.
Arguments ReadForbidden {A}.
Arguments ReadInternalError {A}.

(** [router.get('/:accountId')] of [src/controllers/account.js]. *)
Definition get_account (d : DB) (c : Caller) (accId : Z) : ReadResponse Bank_Account :=
  match find_account d accId with
  | None => ReadNotFound
  | Some account =>
      if negb (user_id account =? caller_id c) && negb (String.eqb (role c) "admin")
      then ReadForbidden
      else ReadOk account
  end.

(** [router.get('/:transaction')] of [src/controllers/transaction.js]; the
    [include] joins both accounts.  A join that finds no account yields
    [null], and [transaction.sourceAccount.user_id] then throws, which
    [next(err)] turns into a 500. *)
Definition get_transaction (d : DB) (c : Caller) (transactionId : Z)
    : ReadResponse Transaction :=
  match transactions d !! transactionId with
  | None => ReadNotFound
  | Some transaction =>
      match find_account d (source_account_id transaction),
            find_account d (destination_account_id transaction) with
      | Some sourceAccount, Some destinationAccount =>
          let sourceAccId := user_id sourceAccount in
          let destAccId := user_id destinationAccount in
          if negb (sourceAccId =? caller_id c) && negb (destAccId =? caller_id c)
             && negb (String.eqb (role c) "admin")
          then ReadForbidden
          else ReadOk transaction
      | _, _ => ReadInternalError
      end
  end.

(** ** Spec scenarios (section 8) as tests *)

Definition acc_A : Bank_Account := mkAccount 1 1 500.
Definition acc_B : Bank_Account := mkAccount 2 2 100.
Definition db0 : DB :=
  mkDB (<[1 := acc_A]> (<[2 := acc_B]> ∅)) ∅ 1.
Definition user1 : Caller := mkCaller 1 "customer".
Definition user2 : Caller := mkCaller 2 "customer".

Example scenario_success :
  let '(d', r) := transfer db0 user1 (mkBody 1 2 200) in
  r = Created (mkTransaction 1 1 2 200) (mkAccount 1 1 300) (mkAccount 2 2 300)
  /\ find_account d' 1 = Some (mkAccount 1 1 300)
  /\ find_account d' 2 = Some (mkAccount 2 2 300)
  /\ map_to_list (transactions d') = [(1, mkTransaction 1 1 2 200)].
Proof. vm_compute. repeat split. Qed.

Example scenario_same_account :
  transfer db0 user1 (mkBody 1 1 10) = (db0, Failed SameAccountTransfer).
Proof. reflexivity. Qed.

Example scenario_not_owner :
  transfer db0 user2 (mkBody 1 2 10) = (db0, Failed NotOwner).
Proof. reflexivity. Qed.

Example scenario_insufficient :
  transfer db0 user1 (mkBody 1 2 1000) = (db0, Failed InsufficientBalance).
Proof. reflexivity. Qed.

Example scenario_validation :
  transfer db0 user1 (mkBody 1 2 0) = (db0, ValidationFailed).
Proof. reflexivity. Qed.

(** ** The concurrent debit race of section 8 *)

(** Account 1 (user 1) holds 100, account 2 (user 2) holds 0; user 1 sends
    two requests moving 100 from account 1 to account 2. *)
(** Balances past [2^53], where JavaScript doubles are no longer exact
    integers. *)
Definition round_db : DB :=
  mkDB (<[1 := mkAccount 1 1 (2 ^ 53 + 2)]> (<[2 := mkAccount 2 2 0]> ∅)) ∅ 1.
Definition round_body : TransferBody := mkBody 1 2 1.

Definition race_db : DB :=
  mkDB (<[1 := mkAccount 1 1 100]> (<[2 := mkAccount 2 2 0]> ∅)) ∅ 1.
Definition race_body : TransferBody := mkBody 1 2 100.

(** Both handlers fetch the two accounts (and pass the checks) before
    either writes; then each runs to the end. *)
Definition race_schedule : list (nat * bool) :=
  [(0%nat, false); (0%nat, false); (1%nat, false); (1%nat, false);
   (0%nat, false); (0%nat, false); (0%nat, false);
   (1%nat, false); (1%nat, false); (1%nat, false)].

(** ** Spec-side definitions *)

(** The preconditions 2-5 of section 4.1 of the spec as an ordered list of
    named checks: each pairs the error it raises with whether it passes.
    A check is only consulted when all earlier ones pass. *)
Definition precondition_checks (d : DB) (c : Caller) (b : TransferBody)
    : list (DomainError * bool) :=
  let osrc := find_account d (body_source b) in
  let odst := find_account d (body_destination b) in
  [ (AccountNotFound, match osrc, odst with
                      | Some _, Some _ => true
                      | _, _ => false
                      end);
    (SameAccountTransfer, negb (body_source b =? body_destination b));
    (NotOwner, match osrc with
               | Some s => caller_id c =? user_id s
               | None => true
               end);
    (InsufficientBalance, match osrc with
                          | Some s => body_amount b <=? balance s
                          | None => true
                          end) ].

Fixpoint first_failing (checks : list (DomainError * bool)) : option DomainError :=
  match checks with
  | [] => None
  | (e, ok) :: rest => if ok then first_failing rest else Some e
  end.

Definition is_created (r : TransferResponse) : bool :=
  match r with
  | Created _ _ _ => true
  | _ => false
  end.

(** ** The rest of the API: users, accounts, lists and middleware *)

(** Prisma models [User] and [Profile]; the extra columns of
    [Bank_Account] ([bank_name], [bank_account_number]) are kept beside the
    account rows of [DB], under the same id. *)
Record User := mkUser {
  u_id : Z;
  name : string;
  email : string;
  password : string;
  user_role : string
}.

Record Profile := mkProfile {
  identity_type : string;
  identity_number : string;
  address : string
}.

Record AccountDetails := mkDetails {
  bank_name : string;
  bank_account_number : string
}.

Record Store := mkStore {
  core : DB;
  account_details : gmap Z AccountDetails;
  next_account_id : Z;
  users : gmap Z User;
  profiles : gmap Z Profile;
  next_user_id : Z
}.

(** [validatedData] of [POST /accounts] (the balance is parsed apart). *)
Record AccountData := mkAccountData {
  ad_user_id : Z;
  ad_bank_name : string;
  ad_bank_account_number : string
}.

(** [validatedData] of [POST /auth/register] and [POST /users]. *)
Record UserData := mkUserData {
  ud_name : string;
  ud_password : string;
  ud_email : string;
  ud_identity_type : string;
  ud_identity_number : string;
  ud_address : string
}.

(** [validatedData] of [POST /auth/login]. *)
Record Credentials := mkCredentials {
  cr_email : string;
  cr_password : string
}.

(** The collaborators the spec (section 1) leaves outside the core, known
    by their interfaces only: token signing and verification with the
    server's secret ([jwt.sign], [jwt.verify]; a verified token decodes to
    the signed user's id and role), password hashing ([bcrypt.hash] with the
    salt it draws, [bcrypt.compare]), the request validators of
    [src/validation/] and the schema default of [User.role]. *)
Class Collaborators := {
  jwt_sign : User -> string;
  jwt_verify : string -> option Caller;
  bcrypt_hash : Z -> string -> string;
  bcrypt_compare : string -> string -> bool;
  validateAccount : AccountData -> bool;
  validateUser : UserData -> bool;
  validateCredentials : Credentials -> bool;
  user_role_default : string
}.

(** Outcome of the middleware chain in front of a handler. *)
Inductive Gate :=
| GateUnauthorized        (* 401 "Unauthorized" *)
| GateForbidden           (* 403 "Forbidden" *)
| GatePass (c : Caller).  (* next() with req.user = c *)

Section Api.
Context `{Collaborators}.

(** [src/middleware/auth.js]: a missing or empty [authorization] header and
    a token that does not verify are both refused. *)
Definition authMiddleware (authorization : option string) : Gate :=
  match authorization with
  | None => GateUnauthorized
  | Some token =>
      if String.eqb token "" then GateUnauthorized else
      match jwt_verify token with
      | None => GateUnauthorized
      | Some decoded => GatePass decoded
      end
  end.

(** [src/middleware/admin.js]: [authMiddleware], then the role test. *)
Definition adminMiddleware (authorization : option string) : Gate :=
  match authMiddleware authorization with
  | GatePass c => if negb (String.eqb (role c) "admin") then GateForbidden else GatePass c
  | g => g
  end.

(** Prisma's [findUnique({where: {email}})] on the unique [email] column. *)
Definition find_user_by_email (s : Store) (e : string) : option User :=
  head (filter (fun u => String.eqb (email u) e) (map_to_list (users s)).*2).

Definition account_number_taken (s : Store) (n : string) : bool :=
  existsb (fun dt => String.eqb (bank_account_number dt) n)
          (map_to_list (account_details s)).*2.

Inductive CreateAccountResponse :=
| CA_Created (user_id : Z)    (* 201 "successfully added account for user_id .." *)
| CA_ValidationFailed         (* 400 with the validator's details *)
| CA_BadBalance               (* 400 "Balance must be a positive number" *)
| CA_NumberTaken              (* P2002: 409 "Bank account number .. has already taken" *)
| CA_NoUser                   (* P2003: 409 "No user with user_id .." *)
| CA_InternalError.           (* next(err) *)

(** [router.post('/')] of [src/controllers/account.js], behind
    [adminMiddleware].  [balance] is [Number(req.body.balance)], [None]
    standing for [NaN].  [fault]: the create call throws an error other
    than the two constraint violations it names.  The unique index on the
    account number is checked before the foreign key on [user_id]. *)
Definition create_account (fault : bool) (s : Store) (validatedData : AccountData)
    (balance : option Z) : Store * CreateAccountResponse :=
  if negb (validateAccount validatedData) then (s, CA_ValidationFailed) else
  match balance with
  | None => (s, CA_BadBalance)
  | Some bal =>
      if bal <? 0 then (s, CA_BadBalance) else
      if fault then (s, CA_InternalError) else
      if account_number_taken s (ad_bank_account_number validatedData)
      then (s, CA_NumberTaken) else
      match users s !! ad_user_id validatedData with
      | None => (s, CA_NoUser)
      | Some _ =>
          let id := next_account_id s in
          let account := mkAccount id (ad_user_id validatedData) bal in
          let d := core s in
          (mkStore (mkDB (<[id := account]> (bank_accounts d)) (transactions d) (next_tx_id d))
                   (<[id := mkDetails (ad_bank_name validatedData)
                                      (ad_bank_account_number validatedData)]>
                      (account_details s))
                   (id + 1) (users s) (profiles s) (next_user_id s),
           CA_Created (user_id account))
      end
  end.

Inductive DeleteAccountResponse :=
| DA_Deleted (deleted_account : Bank_Account)  (* 200 *)
| DA_NotFound                                  (* P2025: 404 *)
| DA_InternalError.                            (* next(err) *)

(** [router.delete('/:accountId')] of [src/controllers/account.js], behind
    [adminMiddleware]: a hard delete. *)
Definition delete_account (fault : bool) (s : Store) (accId : Z)
    : Store * DeleteAccountResponse :=
  if fault then (s, DA_InternalError) else
  match find_account (core s) accId with
  | None => (s, DA_NotFound)
  | Some account =>
      let d := core s in
      (mkStore (mkDB (delete accId (bank_accounts d)) (transactions d) (next_tx_id d))
               (delete accId (account_details s)) (next_account_id s)
               (users s) (profiles s) (next_user_id s),
       DA_Deleted account)
  end.

Inductive RegisterResponse :=
| Reg_Created (user : User)   (* 201 *)
| Reg_ValidationFailed        (* 400 *)
| Reg_EmailTaken              (* P2002: 409 "Email has already been taken" *)
| Reg_InternalError.          (* next(err) *)

(** [router.post('/register')] of [src/controllers/auth.js], the same code
    as [router.post('/')] of [src/controllers/user.js]: the user and its
    profile are created by one nested [create]. *)
Definition register (fault : bool) (salt : Z) (s : Store) (validatedData : UserData)
    : Store * RegisterResponse :=
  if negb (validateUser validatedData) then (s, Reg_ValidationFailed) else
  let hashedPassword := bcrypt_hash salt (ud_password validatedData) in
  if fault then (s, Reg_InternalError) else
  match find_user_by_email s (ud_email validatedData) with
  | Some _ => (s, Reg_EmailTaken)
  | None =>
      let id := next_user_id s in
      let user := mkUser id (ud_name validatedData) (ud_email validatedData)
                    hashedPassword user_role_default in
      (mkStore (core s) (account_details s) (next_account_id s)
               (<[id := user]> (users s))
               (<[id := mkProfile (ud_identity_type validatedData)
                                  (ud_identity_number validatedData)
                                  (ud_address validatedData)]> (profiles s))
               (id + 1),
       Reg_Created user)
  end.

Inductive LoginResponse :=
| Login_Ok (user : User) (token : string)   (* 200 "Logged in as .." *)
| Login_ValidationFailed                     (* 400 with details *)
| Login_Invalid.                             (* 400 "Invalid email or password" *)

(** [router.post('/login')] of [src/controllers/auth.js]. *)
Definition login (s : Store) (validatedData : Credentials) : LoginResponse :=
  if negb (validateCredentials validatedData) then Login_ValidationFailed else
  match find_user_by_email s (cr_email validatedData) with
  | None => Login_Invalid
  | Some user =>
      if negb (bcrypt_compare (cr_password validatedData) (password user))
      then Login_Invalid
      else Login_Ok user (jwt_sign user)
  end.

End Api.

(** [orderBy: {id: 'asc'}] *)
Definition id_le {A} (id : A -> Z) : relation A := fun a b => id a <= id b.

#[global] Instance id_le_dec {A} (id : A -> Z) : RelDecision (id_le id).
Proof. intros a b. unfold id_le. apply _. Defined.

Definition sorted_by_id {A} (id : A -> Z) (m : gmap Z A) : list A :=
  merge_sort (id_le id) (map_to_list m).*2.

(** [router.get('/all')] of [src/controllers/transaction.js]. *)
Definition list_all_transactions (d : DB) : list Transaction :=
  sorted_by_id tx_id (transactions d).

(** The relation filter [{sourceAccount: {user_id}}]: false when the
    related account is missing. *)
Definition owned_by (d : DB) (userId accId : Z) : bool :=
  match find_account d accId with
  | Some a => user_id a =? userId
  | None => false
  end.

(** [router.get('/')] of [src/controllers/transaction.js]. *)
Definition list_user_transactions (d : DB) (c : Caller) : list Transaction :=
  filter (fun tx => owned_by d (caller_id c) (source_account_id tx)
                    || owned_by d (caller_id c) (destination_account_id tx))
         (list_all_transactions d).

(** [router.get('/all')] of [src/controllers/account.js]. *)
Definition list_all_accounts (d : DB) : list Bank_Account :=
  sorted_by_id acc_id (bank_accounts d).

(** [router.get('/')] of [src/controllers/account.js]: [findMany] without
    [orderBy]; the order the database returns is not fixed by the code. *)
Definition list_user_accounts (d : DB) (c : Caller) : list Bank_Account :=
  filter (fun a => user_id a =? caller_id c) (map_to_list (bank_accounts d)).*2.

Inductive UserResponse :=
| User_Ok (user : User) (profile : option Profile)   (* 200 *)
| User_NotFound.                                    (* 404 *)

(** [router.get('/')] of [src/controllers/user.js]: [findUnique] on the
    caller's id, [include: {profile: true}]; the profile is stored under
    the id of its user. *)
Definition get_user (s : Store) (c : Caller) : UserResponse :=
  match users s !! caller_id c with
  | None => User_NotFound
  | Some user => User_Ok user (profiles s !! caller_id c)
  end.

(** ** Well-formed databases *)

(** Every transaction is stored under its id, below the next id to be
    assigned, and names two existing accounts; every account is stored under
    its id. *)
Definition db_wf (d : DB) : Prop :=
  map_Forall (fun k tx =>
                tx_id tx = k /\ k < next_tx_id d /\
                is_Some (find_account d (source_account_id tx)) /\
                is_Some (find_account d (destination_account_id tx)))
             (transactions d) /\
  map_Forall (fun k a => acc_id a = k) (bank_accounts d).

(** A handler past its checks holds two accounts that it will update. *)
Definition handler_refs (d : DB) (h : Handler) : Prop :=
  match h with
  | H_create _ b _ _ | H_updateSource _ b _ _ _ | H_updateDest _ b _ _ _ _ =>
      is_Some (find_account d (body_source b)) /\
      is_Some (find_account d (body_destination b))
  | H_findDest _ b osrc =>
      is_Some osrc -> is_Some (find_account d (body_source b))
  | _ => True
  end.

Definition config_wf (cfg : Config) : Prop :=
  db_wf (db cfg) /\ Forall (handler_refs (db cfg)) (handlers cfg).

(** ** Unique columns of the store *)

(** The unique index on [Bank_Account.bank_account_number]. *)
Definition account_numbers_unique (s : Store) : Prop :=
  forall k1 k2 d1 d2,
    account_details s !! k1 = Some d1 -> account_details s !! k2 = Some d2 ->
    bank_account_number d1 = bank_account_number d2 -> k1 = k2.

(** The unique index on [User.email]. *)
Definition emails_unique (s : Store) : Prop :=
  forall k1 k2 u1 u2,
    users s !! k1 = Some u1 -> users s !! k2 = Some u2 ->
    email u1 = email u2 -> k1 = k2.

#[global] Instance Bank_Account_eq_dec : EqDecision Bank_Account.
Proof. solve_decision. Defined.

#[global] Instance Transaction_eq_dec : EqDecision Transaction.
Proof. solve_decision. Defined.

(** ** Test doubles for the collaborators *)

(** A token table that knows one token, for user 3, a hash that tags the
    password, and validators that accept everything. *)
Definition test_collaborators : Collaborators := {|
  jwt_sign u := if u_id u =? 3 then "token-3" else "token-other";
  jwt_verify t := if String.eqb t "token-3" then Some (mkCaller 3 "customer") else None;
  bcrypt_hash _ p := String.append "hash:" p;
  bcrypt_compare p h := String.eqb (String.append "hash:" p) h;
  validateAccount _ := true;
  validateUser _ := true;
  validateCredentials _ := true;
  user_role_default := "customer"
|}.

(** The accounts of [db0], with their details and owners. *)
Definition store0 : Store :=
  mkStore db0
    (<[1 := mkDetails "BNI" "1111"]> (<[2 := mkDetails "BCA" "2222"]> ∅)) 3
    (<[1 := mkUser 1 "Ann" "ann@example.com" "hash:pw1" "customer"]>
       (<[2 := mkUser 2 "Bob" "bob@example.com" "hash:pw2" "admin"]> ∅))
    ∅ 3.

Definition new_user : UserData :=
  mkUserData "Cid" "pw3" "cid@example.com" "KTP" "123" "Street 1".

(** ** Lemmas about the handler *)

Lemma js_round_small x : - 2 ^ 53 <= x <= 2 ^ 53 -> js_round x = x.
Proof.
  intros Hx. unfold js_round, js_round_pos.
  destruct (x <? 0) eqn:Hn.
  - rewrite (proj2 (Z.leb_le (- x) (2 ^ 53))) by lia. lia.
  - rewrite (proj2 (Z.leb_le x (2 ^ 53))) by lia. reflexivity.
Qed.

Lemma js_round_pos_nonneg x : 0 <= x -> 0 <= js_round_pos x.
Proof.
  intros Hx. unfold js_round_pos.
  destruct (x <=? 2 ^ 53) eqn:Hs; [lia|].
  apply Z.leb_gt in Hs.
  assert (Hl : 53 <= Z.log2 x).
  { rewrite <- (Z.log2_pow2 53) by lia. apply Z.log2_le_mono. lia. }
  assert (Hu : 0 < 2 ^ (Z.log2 x - 52)) by (apply Z.pow_pos_nonneg; lia).
  assert (Hq : 0 <= x / 2 ^ (Z.log2 x - 52)) by (apply Z.div_pos; lia).
  cbv zeta.
  destruct (Z.compare _ _); [destruct (Z.even _)|..]; nia.
Qed.

Lemma js_round_nonneg x : 0 <= x -> 0 <= js_round x.
Proof.
  intros Hx. unfold js_round.
  rewrite (proj2 (Z.ltb_ge x 0)) by lia. by apply js_round_pos_nonneg.
Qed.

Lemma js_sub_self x : js_sub x x = 0.
Proof. unfold js_sub. rewrite Z.sub_diag. reflexivity. Qed.

Lemma create_transaction_accounts d src dst amt :
  bank_accounts (create_transaction d src dst amt).1 = bank_accounts d.
Proof. reflexivity. Qed.

Lemma update_balance_some d id bal a :
  bank_accounts d !! id = Some a ->
  update_balance d id bal =
    Some (mkDB (<[id := mkAccount (acc_id a) (user_id a) bal]> (bank_accounts d))
               (transactions d) (next_tx_id d),
          mkAccount (acc_id a) (user_id a) bal).
Proof. intros H. unfold update_balance. by rewrite H. Qed.

(** The handler run alone with no failing call, written as straight-line code. *)
Lemma transfer_unfold d c b :
  transfer d c b =
  if validateTransaction b then
    match transfer_checks c b (find_account d (body_source b))
                              (find_account d (body_destination b)) with
    | inl e => (d, Failed e)
    | inr (src, dst) =>
        let (d1, tx) := create_transaction d (body_source b)
                          (body_destination b) (body_amount b) in
        match update_balance d1 (body_source b) (js_sub (balance src) (body_amount b)) with
        | None => (d1, InternalError)
        | Some (d2, src') =>
            match update_balance d2 (body_destination b) (js_add (balance dst) (body_amount b)) with
            | None => (d2, InternalError)
            | Some (d3, dst') => (d3, Created tx src' dst')
            end
        end
    end
  else (d, ValidationFailed).
Proof.
  unfold transfer, transfer_with, start.
  destruct (validateTransaction b); [|reflexivity].
  cbn [run_alone step].
  destruct (transfer_checks _ _ _ _) as [e|[src dst]]; [reflexivity|].
  cbn [run_alone step].
  destruct (create_transaction _ _ _ _) as [d1 tx]. cbn [run_alone step].
  destruct (update_balance d1 _ _) as [[d2 src']|]; [|reflexivity].
  cbn [run_alone step].
  destruct (update_balance d2 _ _) as [[d3 dst']|]; reflexivity.
Qed.

(** Once every check passes, both updates find their account. *)
Lemma transfer_checks_pass d c b src dst :
  transfer_checks c b (find_account d (body_source b))
                      (find_account d (body_destination b)) = inr (src, dst) ->
  find_account d (body_source b) = Some src /\
  find_account d (body_destination b) = Some dst /\
  body_source b <> body_destination b /\
  caller_id c = user_id src /\
  body_amount b <= balance src.
Proof.
  unfold transfer_checks.
  destruct (find_account d (body_source b)) as [s|]; [|discriminate].
  destruct (find_account d (body_destination b)) as [t|]; [|discriminate].
  destruct (body_source b =? body_destination b) eqn:E1; [discriminate|].
  destruct (caller_id c =? user_id s) eqn:E2; [|discriminate].
  destruct (body_amount b >? balance s) eqn:E3; [discriminate|].
  intros [= <- <-]. apply Z.eqb_neq in E1. apply Z.eqb_eq in E2.
  rewrite Z.gtb_ltb in E3. apply Z.ltb_ge in E3.
  repeat split; auto; lia.
Qed.

(** The successful path, spelled out on the maps. *)
Lemma transfer_success_shape d c b src dst :
  validateTransaction b = true ->
  transfer_checks c b (find_account d (body_source b))
                      (find_account d (body_destination b)) = inr (src, dst) ->
  let src' := mkAccount (acc_id src) (user_id src) (js_sub (balance src) (body_amount b)) in
  let dst' := mkAccount (acc_id dst) (user_id dst) (js_add (balance dst) (body_amount b)) in
  let '(d1, tx) := create_transaction d (body_source b) (body_destination b) (body_amount b) in
  transfer d c b =
    (mkDB (<[body_destination b := dst']> (<[body_source b := src']> (bank_accounts d)))
          (transactions d1) (next_tx_id d1),
     Created tx src' dst').
Proof.
  intros Hv Hc.
  pose proof (transfer_checks_pass _ _ _ _ _ Hc) as (Hs & Ht & Hne & _ & _).
  rewrite transfer_unfold, Hv, Hc. simpl.
  rewrite (update_balance_some _ _ _ src) by exact Hs. simpl.
  rewrite (update_balance_some _ _ _ dst)
    by (simpl; rewrite lookup_insert_ne by congruence; exact Ht).
  reflexivity.
Qed.

Lemma run_alone_done faults n d r :
  run_alone faults n d (H_done r) = (d, H_done r).
Proof. by destruct n. Qed.

(** A run with failing calls either behaves as the run with none, or ends
    in the internal-error answer. *)
Lemma run_alone_faults faults n d h :
  run_alone faults n d h = run_alone [] n d h \/
  response_of (run_alone faults n d h).2 = InternalError.
Proof.
  revert faults d h. induction n as [|n IH]; intros faults d h; [by left|].
  destruct h as [c b|c b o|c b s t|c b s t tx|c b s t tx s'|r];
    try (by left);
    (destruct faults as [|[] rest]; [by left| |]);
    try (right; cbn [run_alone step]; by rewrite run_alone_done);
    cbn [run_alone];
    (destruct (step false d _) as [d' h'] eqn:Hs;
     destruct (IH rest d' h') as [-> | E]; [by left | by right]).
Qed.

Lemma transfer_with_cases faults d c b :
  transfer_with faults d c b = transfer d c b \/
  (transfer_with faults d c b).2 = InternalError.
Proof.
  unfold transfer, transfer_with.
  destruct (run_alone_faults faults 5 d (start c b)) as [E|E].
  - left. by rewrite E.
  - right. destruct (run_alone faults 5 d (start c b)). exact E.
Qed.

Lemma transfer_failed_of_checks d c b e :
  validateTransaction b = true ->
  transfer_checks c b (find_account d (body_source b))
                      (find_account d (body_destination b)) = inl e ->
  transfer d c b = (d, Failed e).
Proof. intros Hv Hc. by rewrite transfer_unfold, Hv, Hc. Qed.

Lemma transfer_checks_first_failing d c b :
  match transfer_checks c b (find_account d (body_source b))
                            (find_account d (body_destination b)) with
  | inl e => first_failing (precondition_checks d c b) = Some e
  | inr _ => first_failing (precondition_checks d c b) = None
  end.
Proof.
  unfold transfer_checks, precondition_checks.
  destruct (find_account d (body_source b)) as [s|];
  destruct (find_account d (body_destination b)) as [t|]; try reflexivity.
  cbn [first_failing].
  destruct (body_source b =? body_destination b); [reflexivity|].
  destruct (caller_id c =? user_id s); [|reflexivity].
  rewrite Z.gtb_ltb. destruct (balance s <? body_amount b) eqn:E.
  - apply Z.ltb_lt in E. replace (body_amount b <=? balance s) with false.
    + reflexivity.
    + symmetry. apply Z.leb_gt. exact E.
  - apply Z.ltb_ge in E. replace (body_amount b <=? balance s) with true.
    + reflexivity.
    + symmetry. apply Z.leb_le. exact E.
Qed.

Lemma validate_pos b : 0 < body_amount b -> validateTransaction b = true.
Proof. intros H. unfold validateTransaction. by apply Z.ltb_lt. Qed.

(** ** Invariants of interleaved handlers *)

Definition balances_nonneg (d : DB) : Prop :=
  map_Forall (fun _ a => 0 <= balance a) (bank_accounts d).

(** What a suspended handler holds: the amount it passed validation with
    and, once it passed the checks, the balances it read. *)
Definition handler_inv (h : Handler) : Prop :=
  match h with
  | H_findSource _ b => 0 < body_amount b
  | H_findDest _ b osrc => 0 < body_amount b
  | H_create _ b src dst
  | H_updateSource _ b src dst _
  | H_updateDest _ b src dst _ _ =>
      0 < body_amount b /\ body_amount b <= balance src /\ 0 <= balance dst
  | H_done _ => True
  end.

Definition config_inv (cfg : Config) : Prop :=
  balances_nonneg (db cfg) /\ Forall handler_inv (handlers cfg).

Lemma transfer_checks_inr c b o1 o2 src dst :
  transfer_checks c b o1 o2 = inr (src, dst) ->
  o1 = Some src /\ o2 = Some dst /\ body_amount b <= balance src.
Proof.
  unfold transfer_checks.
  destruct o1 as [s|]; [|discriminate]. destruct o2 as [t|]; [|discriminate].
  destruct (body_source b =? body_destination b); [discriminate|].
  destruct (caller_id c =? user_id s); [|discriminate].
  destruct (body_amount b >? balance s) eqn:E; [discriminate|].
  intros [= <- <-]. rewrite Z.gtb_ltb, Z.ltb_ge in E. auto.
Qed.

Lemma update_balance_nonneg d id bal d' a' :
  balances_nonneg d -> 0 <= bal ->
  update_balance d id bal = Some (d', a') -> balances_nonneg d'.
Proof.
  unfold update_balance, balances_nonneg. intros Hd Hbal.
  destruct (bank_accounts d !! id); [|discriminate].
  intros [= <- _]. simpl. by apply map_Forall_insert_2.
Qed.

Lemma start_inv c b : handler_inv (start c b).
Proof.
  unfold start, validateTransaction.
  destruct (0 <? body_amount b) eqn:E; simpl; [by apply Z.ltb_lt | exact I].
Qed.

Lemma step_inv fault d h :
  balances_nonneg d -> handler_inv h ->
  balances_nonneg (step fault d h).1 /\ handler_inv (step fault d h).2.
Proof.
  intros Hd Hh.
  destruct h as [c b|c b o|c b src dst|c b src dst tx|c b src dst tx src'|r];
    [..|by split]; (destruct fault; [by split|]); cbn [step].
  - by split.
  - destruct (transfer_checks _ _ _ _) as [e|[src dst]] eqn:Hc; [by split|].
    apply transfer_checks_inr in Hc as (_ & Ht & Hle).
    split; [exact Hd|]. simpl. repeat split; [exact Hh|exact Hle|].
    unfold find_account in Ht. exact (map_Forall_lookup_1 _ _ _ _ Hd Ht).
  - by split.
  - destruct Hh as (Hpos & Hle & Ht).
    destruct (update_balance d _ _) as [[d' a']|] eqn:Hu; [|by split].
    split; [|simpl; auto].
    apply (update_balance_nonneg _ _ _ _ _ Hd) in Hu; [exact Hu|].
    apply js_round_nonneg. lia.
  - destruct Hh as (Hpos & Hle & Ht).
    destruct (update_balance d _ _) as [[d' a']|] eqn:Hu; [|by split].
    split; [|exact I].
    apply (update_balance_nonneg _ _ _ _ _ Hd) in Hu; [exact Hu|].
    apply js_round_nonneg. lia.
Qed.

Lemma sched_step_inv cfg ev :
  config_inv cfg -> config_inv (sched_step cfg ev).
Proof.
  destruct cfg as [d hs], ev as [i fault]. intros [Hd Hhs].
  unfold sched_step. simpl.
  destruct (hs !! i) as [h|] eqn:Hi; [|by split].
  pose proof (step_inv fault d h Hd (Forall_lookup_1 _ _ _ _ Hhs Hi)) as [Hd' Hh'].
  destruct (step fault d h) as [d' h']. split; [exact Hd'|].
  by apply Forall_insert.
Qed.

Lemma run_schedule_inv cfg sched :
  config_inv cfg -> config_inv (run_schedule cfg sched).
Proof.
  unfold run_schedule. revert cfg.
  induction sched as [|ev sched IH]; intros cfg H; [exact H|].
  simpl. apply IH, sched_step_inv, H.
Qed.

(** ** Lemmas about well-formed databases *)

Definition accounts_grow (d d' : DB) : Prop :=
  forall k, is_Some (find_account d k) -> is_Some (find_account d' k).

Lemma handler_refs_grow d d' h :
  accounts_grow d d' -> handler_refs d h -> handler_refs d' h.
Proof.
  intros Hg. destruct h; simpl; try tauto; intros Hr; [intros Ho; apply Hg, Hr, Ho|..];
    destruct Hr; split; by apply Hg.
Qed.

Lemma update_balance_grow d id bal d' a' :
  update_balance d id bal = Some (d', a') -> accounts_grow d d'.
Proof.
  unfold update_balance, accounts_grow, find_account.
  destruct (bank_accounts d !! id); [|discriminate].
  intros [= <- _] k Hk. simpl. apply lookup_insert_is_Some'. by right.
Qed.

Lemma update_balance_wf d id bal d' a' :
  db_wf d -> update_balance d id bal = Some (d', a') -> db_wf d'.
Proof.
  intros [Htx Hacc] Hu. pose proof (update_balance_grow _ _ _ _ _ Hu) as Hg.
  revert Hu. unfold update_balance.
  destruct (bank_accounts d !! id) as [a|] eqn:Ha; [|discriminate].
  intros [= <- _]. split; simpl.
  - eapply map_Forall_impl; [exact Htx|].
    intros k tx (? & ? & Hs & Ht). repeat split; auto.
  - apply map_Forall_insert_2; [|exact Hacc]. simpl.
    exact (map_Forall_lookup_1 _ _ _ _ Hacc Ha).
Qed.

Lemma step_wf fault d h :
  db_wf d -> handler_refs d h ->
  db_wf (step fault d h).1 /\ handler_refs (step fault d h).1 (step fault d h).2 /\
  accounts_grow d (step fault d h).1.
Proof.
  intros Hwf Hr.
  assert (Hid : accounts_grow d d) by (intros k Hk; exact Hk).
  destruct h as [c b|c b o|c b src dst|c b src dst tx|c b src dst tx src'|r];
    [..|by split]; (destruct fault; [by split|]); cbn [step].
  - split; [exact Hwf|]. split; [simpl; intros [s Hs]; by exists s|exact Hid].
  - destruct (transfer_checks _ _ _ _) as [e|[src dst]] eqn:Hc; [by split|].
    apply transfer_checks_inr in Hc as (Ho & Ht & _).
    split; [exact Hwf|]. split; [|exact Hid]. simpl. split.
    + apply Hr. rewrite Ho. by eexists.
    + rewrite Ht. by eexists.
  - destruct Hwf as [Htx Hacc]. destruct Hr as [Hs Ht].
    split; [split|split]; simpl.
    + apply map_Forall_insert_2.
      * simpl. repeat split; [lia|exact Hs|exact Ht].
      * eapply map_Forall_impl; [exact Htx|].
        intros k tx (? & ? & ? & ?). repeat split; auto; lia.
    + exact Hacc.
    + split; [exact Hs|exact Ht].
    + exact Hid.
  - destruct (update_balance d _ _) as [[d' a']|] eqn:Hu; [|by split].
    pose proof (update_balance_grow _ _ _ _ _ Hu) as Hg.
    split; [exact (update_balance_wf _ _ _ _ _ Hwf Hu)|].
    split; [|exact Hg]. destruct Hr as [Hs Ht]. split; by apply Hg.
  - destruct (update_balance d _ _) as [[d' a']|] eqn:Hu; [|by split].
    pose proof (update_balance_grow _ _ _ _ _ Hu) as Hg.
    split; [exact (update_balance_wf _ _ _ _ _ Hwf Hu)|]. by split.
Qed.

Lemma sched_step_wf cfg ev :
  config_wf cfg -> config_wf (sched_step cfg ev).
Proof.
  destruct cfg as [d hs], ev as [i fault]. intros [Hd Hhs].
  unfold sched_step. simpl.
  destruct (hs !! i) as [h|] eqn:Hi; [|by split].
  pose proof (step_wf fault d h Hd (Forall_lookup_1 _ _ _ _ Hhs Hi)) as (Hd' & Hh' & Hg).
  destruct (step fault d h) as [d' h']. simpl in *. split; [exact Hd'|].
  apply Forall_insert; [|exact Hh'].
  eapply Forall_impl; [exact Hhs|]. intros h0. by apply handler_refs_grow.
Qed.

Lemma run_schedule_wf cfg sched :
  config_wf cfg -> config_wf (run_schedule cfg sched).
Proof.
  unfold run_schedule. revert cfg.
  induction sched as [|ev sched IH]; intros cfg H; [exact H|].
  simpl. apply IH, sched_step_wf, H.
Qed.

(** ** Lemmas about lists ordered by id *)

Section SortedById.
Context {A : Type} (id : A -> Z).

#[local] Instance id_le_total : Total (id_le id).
Proof. intros a b. unfold id_le. lia. Qed.

#[local] Instance id_le_trans : Transitive (id_le id).
Proof. intros a b c. unfold id_le. lia. Qed.

Lemma sorted_by_id_elem (m : gmap Z A) x :
  x ∈ sorted_by_id id m <-> exists k, m !! k = Some x.
Proof.
  unfold sorted_by_id. rewrite (merge_sort_Permutation _ _).
  rewrite list_elem_of_fmap. split.
  - intros [[k y] [-> Hin]]. exists k. by apply elem_of_map_to_list.
  - intros [k Hk]. exists (k, x). split; [done|]. by apply elem_of_map_to_list.
Qed.

Lemma sorted_by_id_sorted (m : gmap Z A) :
  StronglySorted (id_le id) (sorted_by_id id m).
Proof.
  apply StronglySorted_merge_sort; first [exact id_le_trans | exact id_le_total].
Qed.

Lemma fmap_snd_keys (l : list (Z * A)) :
  Forall (fun p => id p.2 = p.1) l -> id <$> l.*2 = l.*1.
Proof.
  induction l as [|[k x] l IH]; intros Hl; [done|].
  apply Forall_cons in Hl as [Hx Hl]. simpl in Hx.
  rewrite !fmap_cons. simpl. by rewrite Hx, (IH Hl).
Qed.

Lemma StronglySorted_strict (l : list A) :
  StronglySorted (id_le id) l -> NoDup (id <$> l) ->
  StronglySorted (fun a b => id a < id b) l.
Proof.
  induction l as [|x l IH]; intros Hs Hnd; [constructor|].
  apply StronglySorted_inv in Hs as [Hs Hall].
  simpl in Hnd. apply NoDup_cons in Hnd as [Hnin Hnd].
  constructor; [by apply IH|].
  apply Forall_forall. intros y Hy.
  pose proof (proj1 (Forall_forall _ _) Hall y Hy) as Hle. unfold id_le in Hle.
  assert (id x <> id y).
  { intros E. apply Hnin. apply list_elem_of_fmap. by exists y. }
  lia.
Qed.

(** When every row is stored under its own id, the ids are strictly
    ascending. *)
Lemma sorted_by_id_strict (m : gmap Z A) :
  map_Forall (fun k x => id x = k) m ->
  StronglySorted (fun a b => id a < id b) (sorted_by_id id m).
Proof.
  intros Hm. apply StronglySorted_strict; [apply sorted_by_id_sorted|].
  unfold sorted_by_id. rewrite (merge_sort_Permutation _ _).
  rewrite fmap_snd_keys; [apply NoDup_fst_map_to_list|].
  apply map_Forall_to_list in Hm.
  eapply Forall_impl; [exact Hm|]. intros [k x]. done.
Qed.

End SortedById.

Lemma StronglySorted_filter {A} (R : relation A) (P : A -> bool) (l : list A) :
  StronglySorted R l -> StronglySorted R (filter P l).
Proof.
  induction l as [|x l IH]; intros Hs; [constructor|].
  apply StronglySorted_inv in Hs as [Hs Hall].
  rewrite filter_cons. destruct (decide (P x)).
  - constructor; [by apply IH|].
    apply Forall_forall. intros y Hy. apply list_elem_of_filter in Hy as [_ Hy].
    exact (proj1 (Forall_forall _ _) Hall y Hy).
  - by apply IH.
Qed.

(** ** Two handlers racing on one source account *)

(** The transaction row a handler has inserted, once it has. *)
Definition tx_of (h : Handler) : option Transaction :=
  match h with
  | H_updateSource _ _ _ _ tx | H_updateDest _ _ _ _ tx _ => Some tx
  | H_done (Created tx _ _) => Some tx
  | _ => None
  end.

(** Whether a handler has written the source balance. *)
Definition debited (h : Handler) : bool :=
  match h with
  | H_updateDest _ _ _ _ _ _ | H_done (Created _ _ _) => true
  | _ => false
  end.

Definition is_done (h : Handler) : bool :=
  match h with
  | H_done _ => true
  | _ => false
  end.

(** A handler of the request [(c, b)] that has fetched the source account
    [s] and has not written anything yet. *)
Definition fetched_source (c : Caller) (b : TransferBody) (s : Bank_Account)
    (h : Handler) : Prop :=
  h = H_findDest c b (Some s) \/ exists t, h = H_create c b s t.

Definition row_of (d : DB) (b : TransferBody) (tx : Transaction) : Prop :=
  tx = mkTransaction (tx_id tx) (body_source b) (body_destination b) (body_amount b) /\
  transactions d !! tx_id tx = Some tx.

(** A handler of [(c, b)] that fetched [s] as its source, at any later
    point of its run that does not end in an error. *)
Definition racer (c : Caller) (b : TransferBody) (s : Bank_Account) (d : DB)
    (h : Handler) : Prop :=
  match h with
  | H_findSource _ _ => False
  | H_findDest c' b' o => c' = c /\ b' = b /\ o = Some s
  | H_create c' b' s' _ => c' = c /\ b' = b /\ s' = s
  | H_updateSource c' b' s' _ tx
  | H_updateDest c' b' s' _ tx _ => c' = c /\ b' = b /\ s' = s /\ row_of d b tx
  | H_done r => exists tx s' t', r = Created tx s' t' /\ row_of d b tx
  end.

Definition race_inv (c : Caller) (b : TransferBody) (s : Bank_Account) (d : DB)
    (h0 h1 : Handler) : Prop :=
  racer c b s d h0 /\ racer c b s d h1 /\
  is_Some (find_account d (body_source b)) /\
  is_Some (find_account d (body_destination b)) /\
  ((debited h0 || debited h1) = true ->
   exists a, find_account d (body_source b) = Some a /\
             balance a = js_sub (balance s) (body_amount b)) /\
  (forall tx0 tx1, tx_of h0 = Some tx0 -> tx_of h1 = Some tx1 ->
                   tx_id tx0 <> tx_id tx1) /\
  (forall h tx, h = h0 \/ h = h1 -> tx_of h = Some tx -> tx_id tx < next_tx_id d).

Lemma step_grow fault d h : accounts_grow d (step fault d h).1.
Proof.
  intros k Hk.
  destruct h as [c b|c b o|c b src dst|c b src dst tx|c b src dst tx src'|r];
    [..|exact Hk]; (destruct fault; [exact Hk|]); cbn [step].
  - exact Hk.
  - destruct (transfer_checks _ _ _ _) as [e|[src dst]]; exact Hk.
  - exact Hk.
  - destruct (update_balance d _ _) as [[d' a']|] eqn:Hu; [|exact Hk].
    exact (update_balance_grow _ _ _ _ _ Hu k Hk).
  - destruct (update_balance d _ _) as [[d' a']|] eqn:Hu; [|exact Hk].
    exact (update_balance_grow _ _ _ _ _ Hu k Hk).
Qed.

Lemma run_schedule_grow cfg sched :
  accounts_grow (db cfg) (db (run_schedule cfg sched)) /\
  length (handlers (run_schedule cfg sched)) = length (handlers cfg).
Proof.
  unfold run_schedule. revert cfg.
  induction sched as [|[i fault] sched IH]; intros cfg; simpl;
    [split; [intros k Hk; exact Hk | reflexivity]|].
  destruct (IH (sched_step cfg (i, fault))) as [Hg Hl].
  unfold sched_step in *. destruct cfg as [d hs]. simpl in *.
  destruct (hs !! i) as [h|]; [|exact (conj Hg Hl)].
  pose proof (step_grow fault d h) as Hs.
  destruct (step fault d h) as [d' h']. simpl in *.
  rewrite length_insert in Hl. split; [|exact Hl].
  intros k Hk. by apply Hg, Hs.
Qed.

Lemma racer_frame c b s d d' h :
  racer c b s d h ->
  (forall tx, tx_of h = Some tx -> transactions d' !! tx_id tx = transactions d !! tx_id tx) ->
  racer c b s d' h.
Proof.
  destruct h as [c0 b0|c0 b0 o|c0 b0 s0 t0|c0 b0 s0 t0 tx|c0 b0 s0 t0 tx s0'|r];
    cbn [racer tx_of]; unfold row_of; auto.
  - intros (? & ? & ? & ? & Hl) Ht. rewrite (Ht _ eq_refl). auto.
  - intros (? & ? & ? & ? & Hl) Ht. rewrite (Ht _ eq_refl). auto.
  - intros (tx & s' & t' & -> & ? & Hl) Ht. cbn [tx_of] in Ht.
    exists tx, s', t'. rewrite (Ht _ eq_refl). auto.
Qed.

Lemma race_inv_sym c b s d h0 h1 :
  race_inv c b s d h0 h1 -> race_inv c b s d h1 h0.
Proof.
  intros (R0 & R1 & Hs & Ht & Hdeb & Hdist & Hlt).
  repeat split; auto.
  - intros E. apply Hdeb. by rewrite orb_comm.
  - intros tx0 tx1 E0 E1 E. exact (Hdist tx1 tx0 E1 E0 (eq_sym E)).
  - intros h tx Hh. apply Hlt. tauto.
Qed.

Section Race.
Variables (c : Caller) (b : TransferBody) (s : Bank_Account).
Hypothesis Hne : body_source b <> body_destination b.
Hypothesis Hown : caller_id c = user_id s.
Hypothesis Hamt : body_amount b = balance s.

Lemma race_step d h0 h1 :
  race_inv c b s d h0 h1 ->
  race_inv c b s (step false d h0).1 (step false d h0).2 h1.
Proof.
  intros (R0 & R1 & Hsrc & Hdst & Hdeb & Hdist & Hlt).
  destruct h0 as [c0 b0|c0 b0 o|c0 b0 s0 t0|c0 b0 s0 t0 tx|c0 b0 s0 t0 tx s0'|r];
    simpl in R0.
  - contradiction.
  - destruct R0 as (-> & -> & ->). cbn [step].
    destruct Hdst as [t' Ht']. rewrite Ht'.
    replace (transfer_checks c b (Some s) (Some t')) with (@inr DomainError _ (s, t')).
    2:{ unfold transfer_checks.
        replace (body_source b =? body_destination b) with false
          by (symmetry; by apply Z.eqb_neq).
        replace (caller_id c =? user_id s) with true by (symmetry; by apply Z.eqb_eq).
        by rewrite Hamt, Z.gtb_ltb, Z.ltb_irrefl. }
    simpl. repeat split; auto.
    intros h tx [->| ->] E; [discriminate|]. apply (Hlt h1); [by right|exact E].
  - destruct R0 as (-> & -> & ->). cbn [step create_transaction].
    set (n := next_tx_id d).
    set (tx := mkTransaction n (body_source b) (body_destination b) (body_amount b)).
    assert (Hn : forall tx1, tx_of h1 = Some tx1 -> tx_id tx1 < n)
      by (intros tx1; apply Hlt; by right).
    unfold race_inv, find_account in *. simpl in *. fold n tx.
    repeat split.
    + change (tx_id tx) with n. cbn [transactions]. by rewrite lookup_insert_eq.
    + apply (racer_frame _ _ _ d); [exact R1|].
      intros tx1 E. cbn [transactions]. apply lookup_insert_ne.
      specialize (Hn tx1 E). lia.
    + exact Hsrc.
    + exact Hdst.
    + intros E. exact (Hdeb E).
    + intros tx0 tx1 [= <-] E. specialize (Hn tx1 E). simpl. lia.
    + intros h tx0 [->| ->] E.
      * injection E as <-. simpl. lia.
      * specialize (Hn tx0 E). lia.
  - destruct R0 as (-> & -> & -> & Hrow). cbn [step].
    destruct Hsrc as [a Ha].
    rewrite (update_balance_some _ _ _ a) by exact Ha.
    unfold race_inv, find_account in *. cbn [fst snd bank_accounts transactions next_tx_id].
    split; [exact (conj eq_refl (conj eq_refl (conj eq_refl Hrow)))|].
    split; [apply (racer_frame _ _ _ d); [exact R1|reflexivity]|].
    split; [by rewrite lookup_insert_eq|].
    split; [apply lookup_insert_is_Some'; by right|].
    split; [intros _; eexists; by rewrite lookup_insert_eq|].
    split; [exact Hdist|].
    intros h tx0 [-> | ->] E;
      [apply (Hlt (H_updateSource c b s t0 tx)); [by left|exact E]
      |apply (Hlt h1); [by right|exact E]].
  - destruct R0 as (-> & -> & -> & Hrow). cbn [step].
    destruct Hdst as [a Ha].
    rewrite (update_balance_some _ _ _ a) by exact Ha.
    unfold race_inv, find_account in *. cbn [fst snd bank_accounts transactions next_tx_id].
    split; [by do 3 eexists|].
    split; [apply (racer_frame _ _ _ d); [exact R1|reflexivity]|].
    split; [apply lookup_insert_is_Some'; by right|].
    split; [by rewrite lookup_insert_eq|].
    split; [intros _; rewrite lookup_insert_ne by congruence; exact (Hdeb eq_refl)|].
    split; [exact Hdist|].
    intros h tx0 [-> | ->] E;
      [apply (Hlt (H_updateDest c b s t0 tx s0')); [by left|exact E]
      |apply (Hlt h1); [by right|exact E]].
  - cbn [step]. repeat split; auto.
Qed.

Lemma race_run d h0 h1 rest :
  race_inv c b s d h0 h1 ->
  Forall (fun ev => ev.2 = false) rest ->
  exists d' h0' h1',
    run_schedule (mkConfig d [h0; h1]) rest = mkConfig d' [h0'; h1'] /\
    race_inv c b s d' h0' h1'.
Proof.
  unfold run_schedule. revert d h0 h1.
  induction rest as [|[i fault] rest IH]; intros d h0 h1 Hinv Hf;
    [by exists d, h0, h1|].
  inversion Hf as [|? ? Hev Hrest]; subst. simpl in Hev. subst fault.
  simpl fold_left.
  destruct i as [|[|i]]; unfold sched_step; simpl.
  - pose proof (race_step d h0 h1 Hinv) as H.
    destruct (step false d h0) as [d' h0']. simpl in H.
    exact (IH d' h0' h1 H Hrest).
  - pose proof (race_step d h1 h0 (race_inv_sym _ _ _ _ _ _ Hinv)) as H.
    destruct (step false d h1) as [d' h1']. simpl in H.
    exact (IH d' h0 h1' (race_inv_sym _ _ _ _ _ _ H) Hrest).
  - exact (IH d h0 h1 Hinv Hrest).
Qed.

End Race.

(** ** Claims *)

(** C3, as the code has it (conservation of funds up to double rounding):
    after a successful transfer, whatever persistence failures could have
    happened, the new source balance is [Number(balance) - Number(amount)]
    and the new destination balance [Number(balance) + Number(amount)],
    both computed as JavaScript doubles.  When the balances and the amount
    are integers and both exact results are at most [2^53] in magnitude, no
    rounding happens and the two balances add up to what they did before
    the call. *)
Theorem transfer_conserves_funds faults d c b d' tx s' t' :
  transfer_with faults d c b = (d', Created tx s' t') ->
  exists s t,
    find_account d (body_source b) = Some s /\
    find_account d (body_destination b) = Some t /\
    find_account d' (body_source b) = Some s' /\
    find_account d' (body_destination b) = Some t' /\
    balance s' = js_sub (balance s) (body_amount b) /\
    balance t' = js_add (balance t) (body_amount b) /\
    (- 2 ^ 53 <= balance s - body_amount b <= 2 ^ 53 ->
     - 2 ^ 53 <= balance t + body_amount b <= 2 ^ 53 ->
     balance s' + balance t' = balance s + balance t).
Proof.
  intros H.
  destruct (transfer_with_cases faults d c b) as [E|E]; rewrite H in E;
    [|discriminate].
  symmetry in E. rewrite transfer_unfold in E.
  destruct (validateTransaction b) eqn:Hv; [|discriminate].
  destruct (transfer_checks _ _ _ _) as [e|[src dst]] eqn:Hc; [discriminate|].
  pose proof (transfer_checks_pass _ _ _ _ _ Hc) as (Hs & Ht & Hne & _ & _).
  pose proof (transfer_success_shape d c b src dst Hv Hc) as Hsh. simpl in Hsh.
  rewrite transfer_unfold, Hv, Hc in Hsh. rewrite Hsh in E.
  injection E as <- <- <- <-.
  exists src, dst. unfold find_account in *. simpl.
  rewrite lookup_insert_ne by congruence. rewrite !lookup_insert_eq.
  do 6 (split; [auto|]). intros H1 H2.
  unfold js_sub, js_add. rewrite !js_round_small by lia. lia.
Qed.

Lemma transfer_conserves_funds_witness :
  let b := mkBody 1 2 200 in
  let d' := (transfer db0 user1 b).1 in
  transfer_with [] db0 user1 b =
    (d', Created (mkTransaction 1 1 2 200) (mkAccount 1 1 300) (mkAccount 2 2 300)) /\
  exists s t,
    find_account db0 (body_source b) = Some s /\
    find_account db0 (body_destination b) = Some t /\
    find_account d' (body_source b) = Some (mkAccount 1 1 300) /\
    find_account d' (body_destination b) = Some (mkAccount 2 2 300) /\
    balance (mkAccount 1 1 300) = js_sub (balance s) (body_amount b) /\
    balance (mkAccount 2 2 300) = js_add (balance t) (body_amount b) /\
    (- 2 ^ 53 <= balance s - body_amount b <= 2 ^ 53 ->
     - 2 ^ 53 <= balance t + body_amount b <= 2 ^ 53 ->
     balance (mkAccount 1 1 300) + balance (mkAccount 2 2 300) = balance s + balance t).
Proof.
  intros b d'.
  assert (H : transfer_with [] db0 user1 b =
    (d', Created (mkTransaction 1 1 2 200) (mkAccount 1 1 300) (mkAccount 2 2 300)))
    by (vm_compute; reflexivity).
  split; [exact H|].
  exact (transfer_conserves_funds [] db0 user1 b d' _ _ _ H).
Defined.

(** C3 fails as stated: above [2^53] the handler's double arithmetic
    rounds.  Source balance [2^53 + 2], destination balance [0], amount
    [1]: the source is written [2^53] (the exact [2^53 + 1] is not a
    double and rounds to the even neighbour) and the destination [1], so
    the two balances add up to [2^53 + 1] instead of [2^53 + 2]. *)
Lemma transfer_conserves_funds_counterexample :
  ~ (forall faults d c b d' tx s' t',
       transfer_with faults d c b = (d', Created tx s' t') ->
       exists s t,
         find_account d (body_source b) = Some s /\
         find_account d (body_destination b) = Some t /\
         find_account d' (body_source b) = Some s' /\
         find_account d' (body_destination b) = Some t' /\
         balance s' + balance t' = balance s + balance t).
Proof.
  intros Hall.
  assert (H : transfer_with [] round_db user1 round_body =
    ((transfer_with [] round_db user1 round_body).1,
     Created (mkTransaction 1 1 2 1) (mkAccount 1 1 (2 ^ 53)) (mkAccount 2 2 1)))
    by (vm_compute; reflexivity).
  destruct (Hall _ _ _ _ _ _ _ _ H) as (s & t & Hs & Ht & _ & _ & Hsum).
  vm_compute in Hs, Ht. injection Hs as <-. injection Ht as <-.
  simpl in Hsum. lia.
Qed.

(** C7 (frame): a transfer that fails one of the domain preconditions,
    whatever persistence failures could have happened, leaves the database
    as it was: no transaction row and no balance change. *)
Theorem transfer_failure_no_change faults d c b d' e :
  transfer_with faults d c b = (d', Failed e) -> d' = d.
Proof.
  intros H.
  destruct (transfer_with_cases faults d c b) as [E|E]; rewrite H in E;
    [|discriminate].
  symmetry in E. rewrite transfer_unfold in E.
  destruct (validateTransaction b); [|discriminate].
  destruct (transfer_checks _ _ _ _) as [e'|[src dst]]; [congruence|].
  destruct (create_transaction _ _ _ _) as [d1 tx].
  destruct (update_balance d1 _ _) as [[d2 src']|]; [|discriminate].
  destruct (update_balance d2 _ _) as [[d3 dst']|]; discriminate.
Qed.

Lemma transfer_failure_no_change_witness :
  transfer_with [] db0 user2 (mkBody 1 2 10) = (db0, Failed NotOwner) /\ db0 = db0.
Proof.
  assert (H : transfer_with [] db0 user2 (mkBody 1 2 10) = (db0, Failed NotOwner))
    by reflexivity.
  split; [exact H|].
  exact (transfer_failure_no_change [] db0 user2 (mkBody 1 2 10) db0 NotOwner H).
Defined.

(** C4 (precedence of the preconditions): for a request that passes the
    amount validation, the handler fails with error [e] exactly when [e] is
    the first failing check of the ordered list existence, same account,
    ownership, balance; when none fails, the transfer is created. *)
Theorem transfer_precondition_order d c b :
  0 < body_amount b ->
  (forall e, (transfer d c b).2 = Failed e <->
             first_failing (precondition_checks d c b) = Some e) /\
  (first_failing (precondition_checks d c b) = None ->
   is_created (transfer d c b).2 = true).
Proof.
  intros Hpos. pose proof (validate_pos b Hpos) as Hv.
  pose proof (transfer_checks_first_failing d c b) as Hf.
  destruct (transfer_checks _ _ _ _) as [e0|[src dst]] eqn:Hc.
  - rewrite (transfer_failed_of_checks d c b e0 Hv Hc), Hf. simpl.
    split; [intros e; split; congruence | discriminate].
  - pose proof (transfer_success_shape d c b src dst Hv Hc) as Hsh. simpl in Hsh.
    rewrite Hsh, Hf. simpl. split; [intros e; split; discriminate | reflexivity].
Qed.

(** The two examples of the claim: a missing account wins over equal ids,
    and a non-owner is refused before the balance is looked at. *)
Lemma transfer_precondition_order_witness :
  (transfer db0 user1 (mkBody 7 7 10)).2 = Failed AccountNotFound /\
  (transfer db0 user2 (mkBody 1 2 1000)).2 = Failed NotOwner.
Proof.
  split.
  - apply (proj1 (transfer_precondition_order db0 user1 (mkBody 7 7 10) ltac:(simpl; lia))
             AccountNotFound).
    reflexivity.
  - apply (proj1 (transfer_precondition_order db0 user2 (mkBody 1 2 1000) ltac:(simpl; lia))
             NotOwner).
    reflexivity.
Defined.

(** C6 (balance check): when both accounts exist, the ids differ and the
    caller owns the source, the transfer fails with InsufficientBalance
    exactly when the amount is strictly above the source balance; an
    amount equal to the balance is transferred and leaves the source at 0. *)
Theorem transfer_insufficient_iff d c b s t :
  0 < body_amount b ->
  find_account d (body_source b) = Some s ->
  find_account d (body_destination b) = Some t ->
  body_source b <> body_destination b ->
  caller_id c = user_id s ->
  ((transfer d c b).2 = Failed InsufficientBalance <-> body_amount b > balance s) /\
  (body_amount b = balance s ->
   exists tx s' t',
     (transfer d c b).2 = Created tx s' t' /\
     find_account (transfer d c b).1 (body_source b) = Some s' /\
     balance s' = 0).
Proof.
  intros Hpos Hs Ht Hne Howner. pose proof (validate_pos b Hpos) as Hv.
  destruct (body_amount b >? balance s) eqn:Hgt.
  - assert (Hc : transfer_checks c b (find_account d (body_source b))
                   (find_account d (body_destination b)) = inl InsufficientBalance).
    { unfold transfer_checks. rewrite Hs, Ht.
      replace (body_source b =? body_destination b) with false
        by (symmetry; by apply Z.eqb_neq).
      replace (caller_id c =? user_id s) with true by (symmetry; by apply Z.eqb_eq).
      by rewrite Hgt. }
    rewrite (transfer_failed_of_checks d c b _ Hv Hc). simpl.
    rewrite Z.gtb_ltb, Z.ltb_lt in Hgt.
    split; [split; [lia | reflexivity] | lia].
  - assert (Hc : transfer_checks c b (find_account d (body_source b))
                   (find_account d (body_destination b)) = inr (s, t)).
    { unfold transfer_checks. rewrite Hs, Ht.
      replace (body_source b =? body_destination b) with false
        by (symmetry; by apply Z.eqb_neq).
      replace (caller_id c =? user_id s) with true by (symmetry; by apply Z.eqb_eq).
      by rewrite Hgt. }
    pose proof (transfer_success_shape d c b s t Hv Hc) as Hsh. simpl in Hsh.
    rewrite Hsh. simpl.
    rewrite Z.gtb_ltb, Z.ltb_ge in Hgt.
    split; [split; [discriminate | lia]|].
    intros Heq. do 3 eexists. split; [reflexivity|]. split.
    + unfold find_account. simpl.
      rewrite lookup_insert_ne by congruence. by rewrite lookup_insert_eq.
    + simpl. rewrite Heq. apply js_sub_self.
Qed.

(** Source A holds 500; a transfer of exactly 500 and one of 501. *)
Lemma transfer_insufficient_iff_witness :
  (exists tx s' t',
     (transfer db0 user1 (mkBody 1 2 500)).2 = Created tx s' t' /\
     find_account (transfer db0 user1 (mkBody 1 2 500)).1 1 = Some s' /\
     balance s' = 0) /\
  (transfer db0 user1 (mkBody 1 2 501)).2 = Failed InsufficientBalance.
Proof.
  split.
  - apply (proj2 (transfer_insufficient_iff db0 user1 (mkBody 1 2 500) acc_A acc_B
                    ltac:(simpl; lia) ltac:(reflexivity) ltac:(reflexivity)
                    ltac:(simpl; lia) ltac:(reflexivity))).
    reflexivity.
  - apply (proj1 (transfer_insufficient_iff db0 user1 (mkBody 1 2 501) acc_A acc_B
                    ltac:(simpl; lia) ltac:(reflexivity) ltac:(reflexivity)
                    ltac:(simpl; lia) ltac:(reflexivity))).
    simpl. lia.
Defined.

(** C10 (no admin bypass on transfers): when both accounts exist and the
    ids differ, a caller whose id is not the source owner's gets NotOwner,
    with any role, admin included; the same admin may read the account. *)
Theorem transfer_admin_no_bypass d c b s t :
  0 < body_amount b ->
  find_account d (body_source b) = Some s ->
  find_account d (body_destination b) = Some t ->
  body_source b <> body_destination b ->
  caller_id c <> user_id s ->
  (transfer d c b).2 = Failed NotOwner /\
  (transfer d (mkCaller (caller_id c) "admin") b).2 = Failed NotOwner /\
  get_account d (mkCaller (caller_id c) "admin") (body_source b) = ReadOk s.
Proof.
  intros Hpos Hs Ht Hne Hown. pose proof (validate_pos b Hpos) as Hv.
  assert (Hc : forall c', caller_id c' = caller_id c ->
                 transfer_checks c' b (find_account d (body_source b))
                   (find_account d (body_destination b)) = inl NotOwner).
  { intros c' Hid. unfold transfer_checks. rewrite Hs, Ht, Hid.
    replace (body_source b =? body_destination b) with false
      by (symmetry; by apply Z.eqb_neq).
    by replace (caller_id c =? user_id s) with false by (symmetry; by apply Z.eqb_neq). }
  split; [|split].
  - by rewrite (transfer_failed_of_checks d c b _ Hv (Hc c eq_refl)).
  - by rewrite (transfer_failed_of_checks d _ b _ Hv
                  (Hc (mkCaller (caller_id c) "admin") eq_refl)).
  - unfold get_account. rewrite Hs. simpl.
    by rewrite andb_false_r.
Qed.

Definition admin0 : Caller := mkCaller 2 "admin".

Lemma transfer_admin_no_bypass_witness :
  (transfer db0 admin0 (mkBody 1 2 10)).2 = Failed NotOwner /\
  (transfer db0 (mkCaller (caller_id admin0) "admin") (mkBody 1 2 10)).2 = Failed NotOwner /\
  get_account db0 (mkCaller (caller_id admin0) "admin") 1 = ReadOk acc_A.
Proof.
  exact (transfer_admin_no_bypass db0 admin0 (mkBody 1 2 10) acc_A acc_B
           ltac:(simpl; lia) ltac:(reflexivity) ltac:(reflexivity)
           ltac:(simpl; lia) ltac:(simpl; lia)).
Defined.

(** C8 (single-account read): a missing account gives NotFound whoever
    asks; an existing one is returned exactly to its owner or to an admin,
    and anyone else gets Forbidden. *)
Theorem get_account_policy d c accId :
  match find_account d accId with
  | None => get_account d c accId = ReadNotFound
  | Some a =>
      (get_account d c accId = ReadOk a <->
       caller_id c = user_id a \/ role c = "admin"%string) /\
      (get_account d c accId <> ReadOk a -> get_account d c accId = ReadForbidden)
  end.
Proof.
  unfold get_account. destruct (find_account d accId) as [a|]; [|reflexivity].
  destruct (user_id a =? caller_id c) eqn:E1;
  destruct (String.eqb (role c) "admin") eqn:E2; simpl;
  rewrite ?Z.eqb_eq, ?Z.eqb_neq, ?String.eqb_eq, ?String.eqb_neq in *;
  split; try (intros H; congruence); split; intros; try reflexivity;
  try discriminate; intuition congruence.
Qed.

(** C9 (single-transaction read): a missing transaction gives NotFound
    before any authorization check; an existing one (whose two accounts
    exist, as the foreign keys guarantee) is returned exactly to the owner
    of its source or destination account or to an admin, and anyone else
    gets Forbidden. *)
Theorem get_transaction_policy d c transactionId :
  (transactions d !! transactionId = None ->
   get_transaction d c transactionId = ReadNotFound) /\
  (forall tx s t,
     transactions d !! transactionId = Some tx ->
     find_account d (source_account_id tx) = Some s ->
     find_account d (destination_account_id tx) = Some t ->
     (get_transaction d c transactionId = ReadOk tx <->
      caller_id c = user_id s \/ caller_id c = user_id t \/ role c = "admin"%string) /\
     (get_transaction d c transactionId <> ReadOk tx ->
      get_transaction d c transactionId = ReadForbidden)).
Proof.
  unfold get_transaction. split.
  - intros H. by rewrite H.
  - intros tx s t Htx Hs Ht. rewrite Htx, Hs, Ht. simpl.
    destruct (user_id s =? caller_id c) eqn:E1;
    destruct (user_id t =? caller_id c) eqn:E2;
    destruct (String.eqb (role c) "admin") eqn:E3; simpl;
    rewrite ?Z.eqb_eq, ?Z.eqb_neq, ?String.eqb_eq, ?String.eqb_neq in *;
    split; try (intros H; congruence); split; intros; try reflexivity;
    try discriminate; intuition congruence.
Qed.

(** After the scenario transfer from A to B, user 1 and user 2 may read
    the transaction and user 3 may not; an unknown id is not found. *)
Lemma get_transaction_policy_witness :
  let d := (transfer db0 user1 (mkBody 1 2 200)).1 in
  get_transaction d (mkCaller 3 "customer") 5 = ReadNotFound /\
  (get_transaction d user2 1 = ReadOk (mkTransaction 1 1 2 200) <->
   caller_id user2 = 1 \/ caller_id user2 = 2 \/ role user2 = "admin"%string).
Proof.
  intros d. split.
  - apply (proj1 (get_transaction_policy d (mkCaller 3 "customer") 5)).
    vm_compute. reflexivity.
  - exact (proj1 (proj2 (get_transaction_policy d user2 1)
            (mkTransaction 1 1 2 200) (mkAccount 1 1 300) (mkAccount 2 2 300)
            ltac:(vm_compute; reflexivity) ltac:(vm_compute; reflexivity)
            ltac:(vm_compute; reflexivity))).
Defined.

(** C5 (non-negativity): from a database with no negative balance, any
    set of transfer requests, resumed in any interleaving and with any
    persistence failures, never makes a balance negative: each source write
    is a balance read by the handler minus an amount it checked against
    that balance, each destination write a balance read plus a positive
    amount. *)
Theorem balances_never_negative d (reqs : list (Caller * TransferBody))
    (sched : list (nat * bool)) :
  balances_nonneg d ->
  balances_nonneg
    (db (run_schedule (mkConfig d (map (fun '(c, b) => start c b) reqs)) sched)).
Proof.
  intros Hd.
  apply (run_schedule_inv (mkConfig d (map (fun '(c, b) => start c b) reqs)) sched).
  split; [exact Hd|]. simpl.
  apply Forall_forall. intros h Hin.
  apply list_elem_of_In, in_map_iff in Hin as [[c b] [<- _]]. apply start_inv.
Qed.

Lemma balances_never_negative_witness :
  balances_nonneg
    (db (run_schedule
           (mkConfig race_db (map (fun '(c, b) => start c b)
                                  [(user1, race_body); (user1, race_body)]))
           race_schedule)).
Proof.
  apply (balances_never_negative race_db [(user1, race_body); (user1, race_body)]
           race_schedule).
  apply (bool_decide_unpack _). vm_compute. reflexivity.
Defined.

(** C2, refuted: with the source holding B = 100, two concurrent transfers
    of 100 both succeed when both handlers read the source before either
    writes; two transaction rows of 100 are recorded against 100 of funds. *)
Lemma concurrent_debits_both_succeed :
  let final := run_schedule
                 (mkConfig race_db [start user1 race_body; start user1 race_body])
                 race_schedule in
  map (fun h => is_created (response_of h)) (handlers final) = [true; true] /\
  transactions (db final) !! 1 = Some (mkTransaction 1 1 2 100) /\
  transactions (db final) !! 2 = Some (mkTransaction 2 1 2 100) /\
  find_account (db final) 1 = Some (mkAccount 1 1 0) /\
  find_account (db final) 2 = Some (mkAccount 2 2 100).
Proof. vm_compute. repeat split. Qed.

(** C2, amended: the balance check and the debit of two requests are not
    serialized.  Run one after the other, two transfers of the whole
    balance B > 0 of a source give one success and one InsufficientBalance.
    Interleaved so that both requests have fetched the source account
    before either writes, then whatever the order of the remaining steps,
    when both run to completion without a persistence failure both
    succeed: two transaction rows of B are recorded, and the source ends at
    B - B = 0 instead of -B, the second debit overwriting the first. *)
Theorem concurrent_debits_not_serialized d c src dst s t pre rest :
  find_account d src = Some s ->
  find_account d dst = Some t ->
  src <> dst ->
  caller_id c = user_id s ->
  0 < balance s ->
  let b := mkBody src dst (balance s) in
  let cfg1 := run_schedule (mkConfig d [start c b; start c b]) pre in
  let cfg2 := run_schedule cfg1 rest in
  (is_created (transfer d c b).2 = true /\
   (transfer (transfer d c b).1 c b).2 = Failed InsufficientBalance) /\
  (Forall (fetched_source c b s) (handlers cfg1) ->
   Forall (fun ev => ev.2 = false) rest ->
   Forall (fun h => is_done h = true) (handlers cfg2) ->
   map (fun h => is_created (response_of h)) (handlers cfg2) = [true; true] /\
   (exists tx1 tx2,
      tx_id tx1 <> tx_id tx2 /\
      transactions (db cfg2) !! tx_id tx1 = Some tx1 /\
      transactions (db cfg2) !! tx_id tx2 = Some tx2 /\
      tx1 = mkTransaction (tx_id tx1) src dst (balance s) /\
      tx2 = mkTransaction (tx_id tx2) src dst (balance s)) /\
   exists a, find_account (db cfg2) src = Some a /\ balance a = 0).
Proof.
  intros Hs Ht Hne Hown Hpos b cfg1 cfg2.
  assert (Hv : validateTransaction b = true) by (apply validate_pos; exact Hpos).
  assert (Hc : transfer_checks c b (Some s) (Some t) = inr (s, t)).
  { unfold transfer_checks. simpl.
    replace (src =? dst) with false by (symmetry; by apply Z.eqb_neq).
    replace (caller_id c =? user_id s) with true by (symmetry; by apply Z.eqb_eq).
    by rewrite Z.gtb_ltb, Z.ltb_irrefl. }
  split.
  - assert (Hc' : transfer_checks c b (find_account d (body_source b))
                    (find_account d (body_destination b)) = inr (s, t))
      by (simpl; rewrite Hs, Ht; exact Hc).
    pose proof (transfer_success_shape d c b s t Hv Hc') as Hsh. simpl in Hsh.
    rewrite Hsh. split; [reflexivity|].
    assert (Hc2 : transfer_checks c b
                    (find_account (transfer d c b).1 (body_source b))
                    (find_account (transfer d c b).1 (body_destination b))
                  = inl InsufficientBalance).
    { rewrite Hsh. unfold find_account, transfer_checks. simpl.
      rewrite lookup_insert_ne by congruence. rewrite !lookup_insert_eq. simpl.
      replace (src =? dst) with false by (symmetry; by apply Z.eqb_neq).
      replace (caller_id c =? user_id s) with true by (symmetry; by apply Z.eqb_eq).
      rewrite js_sub_self.
      replace (balance s >? 0) with true
        by (symmetry; rewrite Z.gtb_ltb; apply Z.ltb_lt; lia).
      reflexivity. }
    rewrite Hsh in Hc2.
    by rewrite (transfer_failed_of_checks _ c b _ Hv Hc2).
  - intros Hpre Hrest Hdone.
    destruct (run_schedule_grow (mkConfig d [start c b; start c b]) pre) as [Hg Hl].
    fold cfg1 in Hg, Hl. simpl in Hl.
    destruct cfg1 as [d1 hs1] eqn:E1. simpl in Hg, Hl, Hpre.
    destruct hs1 as [|h0 [|h1 [|]]]; try discriminate.
    assert (Hinv : race_inv c b s d1 h0 h1).
    { inversion Hpre as [|? ? F0 Hpre1]; subst.
      inversion Hpre1 as [|? ? F1 _]; subst.
      assert (Hf : forall h, fetched_source c b s h -> racer c b s d1 h
                      /\ debited h = false /\ tx_of h = None).
      { intros h [-> | [t' ->]]; simpl; auto. }
      destruct (Hf h0 F0) as (R0 & D0 & T0), (Hf h1 F1) as (R1 & D1 & T1).
      split; [exact R0|]. split; [exact R1|].
      split; [apply Hg; simpl; rewrite Hs; by eexists|].
      split; [apply Hg; simpl; rewrite Ht; by eexists|].
      split; [rewrite D0, D1; discriminate|].
      split; [intros tx0 tx1 E; rewrite T0 in E; discriminate|].
      intros h tx [-> | ->]; [rewrite T0|rewrite T1]; discriminate. }
    destruct (race_run c b s ltac:(exact Hne) Hown eq_refl d1 h0 h1 rest Hinv Hrest)
      as (d2 & h0' & h1' & E2 & R0 & R1 & _ & _ & Hdeb & Hdist & _).
    unfold cfg2 in Hdone |- *. rewrite E2 in Hdone |- *. simpl in Hdone |- *.
    inversion Hdone as [|? ? F0 Hdone1]; subst.
    inversion Hdone1 as [|? ? F1 _]; subst.
    destruct h0' as [| | | | |r0]; try discriminate.
    destruct h1' as [| | | | |r1]; try discriminate.
    destruct R0 as (tx0 & s0 & t0 & -> & Row0 & Hrow0).
    destruct R1 as (tx1 & s1 & t1 & -> & Row1 & Hrow1).
    split; [reflexivity|]. split.
    + exists tx0, tx1. repeat split; auto.
    + destruct (Hdeb eq_refl) as (a & Ha & Hb).
      exists a. split; [exact Ha|]. rewrite Hb. apply js_sub_self.
Qed.

(** The race schedule of [race_db]: both handlers fetch the source, then
    the remaining nine steps run without failure. *)
Lemma concurrent_debits_not_serialized_witness :
  let b := mkBody 1 2 (balance (mkAccount 1 1 100)) in
  let pre := [(0%nat, false); (1%nat, false)] in
  let rest := [(0%nat, false); (1%nat, false); (0%nat, false); (0%nat, false);
               (0%nat, false); (1%nat, false); (1%nat, false); (1%nat, false)] in
  let cfg1 := run_schedule (mkConfig race_db [start user1 b; start user1 b]) pre in
  let cfg2 := run_schedule cfg1 rest in
  Forall (fetched_source user1 b (mkAccount 1 1 100)) (handlers cfg1) /\
  Forall (fun ev => ev.2 = false) rest /\
  Forall (fun h => is_done h = true) (handlers cfg2) /\
  (is_created (transfer race_db user1 b).2 = true /\
   (transfer (transfer race_db user1 b).1 user1 b).2 = Failed InsufficientBalance) /\
  map (fun h => is_created (response_of h)) (handlers cfg2) = [true; true] /\
  (exists tx1 tx2,
     tx_id tx1 <> tx_id tx2 /\
     transactions (db cfg2) !! tx_id tx1 = Some tx1 /\
     transactions (db cfg2) !! tx_id tx2 = Some tx2 /\
     tx1 = mkTransaction (tx_id tx1) 1 2 100 /\
     tx2 = mkTransaction (tx_id tx2) 1 2 100) /\
  exists a, find_account (db cfg2) 1 = Some a /\ balance a = 0.
Proof.
  intros b pre rest cfg1 cfg2.
  assert (F1 : Forall (fetched_source user1 b (mkAccount 1 1 100)) (handlers cfg1)).
  { vm_compute. repeat constructor; left; reflexivity. }
  assert (F2 : Forall (fun ev => ev.2 = false) rest) by (repeat constructor).
  assert (F3 : Forall (fun h => is_done h = true) (handlers cfg2))
    by (vm_compute; repeat constructor).
  destruct (concurrent_debits_not_serialized race_db user1 1 2
              (mkAccount 1 1 100) (mkAccount 2 2 0) pre rest
              ltac:(reflexivity) ltac:(reflexivity) ltac:(lia)
              ltac:(reflexivity) ltac:(simpl; lia)) as [Hseq Hrace].
  destruct (Hrace F1 F2 F3) as (Hm & Hrows & Hsrc).
  exact (conj F1 (conj F2 (conj F3 (conj Hseq (conj Hm (conj Hrows Hsrc)))))).
Defined.

(** C1, refuted: the destination update of a request that passed every
    check throws (fourth and fifth calls: source update succeeds,
    destination update fails).  The caller gets the internal error, yet the
    transaction row and the debit of A stay persisted; B is not credited. *)
Lemma transfer_partial_write_persists :
  let '(d', r) := transfer_with [false; false; false; false; true]
                    db0 user1 (mkBody 1 2 200) in
  r = InternalError /\
  transactions d' !! 1 = Some (mkTransaction 1 1 2 200) /\
  find_account d' 1 = Some (mkAccount 1 1 300) /\
  find_account d' 2 = Some acc_B.
Proof. vm_compute. repeat split. Qed.

(** C1, amended: the three mutations are three persistence calls made one
    after the other, with no enclosing database transaction and no
    rollback.  If the transaction insert throws nothing is written; if the
    source update throws the transaction row stays; if the destination
    update throws the row and the debited source stay; the caller gets the
    internal error in all three cases.  If none throws, all three apply. *)
Theorem transfer_writes_not_atomic d c b s t :
  validateTransaction b = true ->
  transfer_checks c b (find_account d (body_source b))
                      (find_account d (body_destination b)) = inr (s, t) ->
  let '(d1, tx) := create_transaction d (body_source b) (body_destination b)
                     (body_amount b) in
  let s' := mkAccount (acc_id s) (user_id s) (js_sub (balance s) (body_amount b)) in
  let t' := mkAccount (acc_id t) (user_id t) (js_add (balance t) (body_amount b)) in
  let d2 := mkDB (<[body_source b := s']> (bank_accounts d))
                 (transactions d1) (next_tx_id d1) in
  let d3 := mkDB (<[body_destination b := t']> (bank_accounts d2))
                 (transactions d1) (next_tx_id d1) in
  transfer_with [false; false; true] d c b = (d, InternalError) /\
  transfer_with [false; false; false; true] d c b = (d1, InternalError) /\
  transfer_with [false; false; false; false; true] d c b = (d2, InternalError) /\
  transfer_with [] d c b = (d3, Created tx s' t').
Proof.
  intros Hv Hc.
  pose proof (transfer_checks_pass _ _ _ _ _ Hc) as (Hs & Ht & Hne & _ & _).
  unfold transfer_with, start. rewrite Hv.
  cbn [run_alone step create_transaction]. rewrite Hc.
  cbn [run_alone step create_transaction].
  rewrite (update_balance_some _ _ _ s) by exact Hs.
  cbn [run_alone step].
  rewrite (update_balance_some _ _ _ t)
    by (simpl; rewrite lookup_insert_ne by congruence; exact Ht).
  repeat split.
Qed.

Lemma transfer_writes_not_atomic_witness :
  let b := mkBody 1 2 200 in
  transfer_with [false; false; false; false; true] db0 user1 b =
    (mkDB (<[1 := mkAccount 1 1 300]> (bank_accounts db0))
          (<[1 := mkTransaction 1 1 2 200]> (transactions db0)) 2,
     InternalError).
Proof.
  intros b.
  exact (proj1 (proj2 (proj2
           (transfer_writes_not_atomic db0 user1 b acc_A acc_B
              ltac:(reflexivity) ltac:(reflexivity))))).
Defined.

(** ** Further properties of the API *)

Lemma owned_by_spec d userId accId :
  owned_by d userId accId = true <->
  exists a, find_account d accId = Some a /\ user_id a = userId.
Proof.
  unfold owned_by. destruct (find_account d accId) as [a|]; split.
  - intros E. apply Z.eqb_eq in E. by exists a.
  - intros (a' & [= <-] & E). by apply Z.eqb_eq.
  - discriminate.
  - by intros (a' & ? & _).
Qed.

(** The caller's transactions ([GET /transactions]): exactly the stored
    transactions whose source or destination account belongs to the
    caller, ascending by id. *)
Lemma list_user_transactions_elem d c :
  (forall tx, tx ∈ list_user_transactions d c <->
     (exists k, transactions d !! k = Some tx) /\
     ((exists a, find_account d (source_account_id tx) = Some a /\ user_id a = caller_id c) \/
      (exists a, find_account d (destination_account_id tx) = Some a /\
                 user_id a = caller_id c))) /\
  StronglySorted (fun a b => tx_id a <= tx_id b) (list_user_transactions d c).
Proof.
  split.
  - intros tx. unfold list_user_transactions, list_all_transactions.
    rewrite list_elem_of_filter, Is_true_true, orb_true_iff, !owned_by_spec.
    rewrite (sorted_by_id_elem tx_id). tauto.
  - apply StronglySorted_filter, (sorted_by_id_sorted tx_id).
Qed.

Lemma user_transactions_lookup d c tx :
  db_wf d -> tx ∈ list_user_transactions d c ->
  transactions d !! tx_id tx = Some tx /\
  ((exists a, find_account d (source_account_id tx) = Some a /\ user_id a = caller_id c) \/
   (exists a, find_account d (destination_account_id tx) = Some a /\
              user_id a = caller_id c)) /\
  is_Some (find_account d (source_account_id tx)) /\
  is_Some (find_account d (destination_account_id tx)).
Proof.
  intros [Htx _] Hin. apply (proj1 (list_user_transactions_elem d c)) in Hin
    as [[k Hk] Hown].
  pose proof (map_Forall_lookup_1 _ _ _ _ Htx Hk) as (Hid & _ & Hs & Ht).
  subst k. auto.
Qed.

(** Every transaction of the caller's list can be read by the caller with
    [GET /transactions/:id]. *)
Theorem list_user_transactions_readable d c tx :
  db_wf d -> tx ∈ list_user_transactions d c ->
  get_transaction d c (tx_id tx) = ReadOk tx.
Proof.
  intros Hwf Hin.
  destruct (user_transactions_lookup d c tx Hwf Hin)
    as (Hk & Hown & [s Hs] & [t Ht]).
  unfold get_transaction. rewrite Hk, Hs, Ht.
  destruct Hown as [(a & Ha & Hu)|(a & Ha & Hu)].
  - rewrite Hs in Ha. injection Ha as ->. rewrite Hu, Z.eqb_refl. reflexivity.
  - rewrite Ht in Ha. injection Ha as ->. rewrite Hu, Z.eqb_refl.
    by rewrite andb_false_r, andb_false_l.
Qed.

(** The caller's accounts ([GET /accounts]): exactly the stored accounts
    whose [user_id] is the caller's, each readable by the caller with
    [GET /accounts/:id]. *)
Theorem list_user_accounts_spec d c :
  (forall a, a ∈ list_user_accounts d c <->
     (exists k, bank_accounts d !! k = Some a) /\ user_id a = caller_id c) /\
  (db_wf d -> forall a, a ∈ list_user_accounts d c -> get_account d c (acc_id a) = ReadOk a).
Proof.
  assert (Hel : forall a, a ∈ list_user_accounts d c <->
            (exists k, bank_accounts d !! k = Some a) /\ user_id a = caller_id c).
  { intros a. unfold list_user_accounts.
    rewrite list_elem_of_filter, Is_true_true, Z.eqb_eq, list_elem_of_fmap.
    split.
    - intros [Hu [[k y] [-> Hin]]]. split; [|exact Hu].
      exists k. by apply elem_of_map_to_list.
    - intros [[k Hk] Hu]. split; [exact Hu|]. exists (k, a).
      split; [done|]. by apply elem_of_map_to_list. }
  split; [exact Hel|].
  intros [_ Hacc] a Hin. apply Hel in Hin as [[k Hk] Hu].
  pose proof (map_Forall_lookup_1 _ _ _ _ Hacc Hk) as Hid. cbv beta in Hid. subst k.
  unfold get_account, find_account. rewrite Hk, Hu, Z.eqb_refl. reflexivity.
Qed.

(** Transfers, run alone or interleaved in any order and with any
    persistence failures, keep the database well formed: each transaction
    stays under its own id, below the next id, and names two existing
    accounts (no transfer removes an account), and each account keeps its
    id. *)
Theorem transfers_keep_db_wf d (reqs : list (Caller * TransferBody))
    (sched : list (nat * bool)) :
  db_wf d ->
  db_wf (db (run_schedule (mkConfig d (map (fun '(c, b) => start c b) reqs)) sched)).
Proof.
  intros Hd.
  apply (run_schedule_wf (mkConfig d (map (fun '(c, b) => start c b) reqs)) sched).
  split; [exact Hd|]. simpl.
  apply Forall_forall. intros h Hin.
  apply list_elem_of_In, in_map_iff in Hin as [[c b] [<- _]].
  unfold start. destruct (validateTransaction b); exact I.
Qed.

(** A successful transfer, whatever persistence failures could have
    happened, has stored its transaction under the next id; the transaction
    is in the caller's list and can be read back both by the caller and by
    the owner of the destination account. *)
Theorem transfer_created_visible faults d c b d' tx s' t' :
  transfer_with faults d c b = (d', Created tx s' t') ->
  tx = mkTransaction (next_tx_id d) (body_source b) (body_destination b) (body_amount b) /\
  transactions d' !! tx_id tx = Some tx /\
  tx ∈ list_user_transactions d' c /\
  get_transaction d' c (tx_id tx) = ReadOk tx /\
  forall r, get_transaction d' (mkCaller (user_id t') r) (tx_id tx) = ReadOk tx.
Proof.
  intros H.
  destruct (transfer_with_cases faults d c b) as [E|E]; rewrite H in E;
    [|discriminate].
  symmetry in E. rewrite transfer_unfold in E.
  destruct (validateTransaction b) eqn:Hv; [|discriminate].
  destruct (transfer_checks _ _ _ _) as [e|[src dst]] eqn:Hc; [discriminate|].
  pose proof (transfer_checks_pass _ _ _ _ _ Hc) as (Hs & Ht & Hne & Hown & _).
  pose proof (transfer_success_shape d c b src dst Hv Hc) as Hsh. simpl in Hsh.
  rewrite transfer_unfold, Hv, Hc in Hsh. rewrite Hsh in E.
  injection E as <- <- <- <-.
  assert (Hsrc : find_account (mkDB (<[body_destination b :=
              mkAccount (acc_id dst) (user_id dst) (js_add (balance dst) (body_amount b))]>
            (<[body_source b := mkAccount (acc_id src) (user_id src)
                                  (js_sub (balance src) (body_amount b))]> (bank_accounts d)))
            (<[next_tx_id d := mkTransaction (next_tx_id d) (body_source b)
                                 (body_destination b) (body_amount b)]> (transactions d))
            (next_tx_id d + 1)) (body_source b) =
          Some (mkAccount (acc_id src) (user_id src) (js_sub (balance src) (body_amount b)))).
  { unfold find_account. simpl. rewrite lookup_insert_ne by congruence.
    by rewrite lookup_insert_eq. }
  assert (Hdst : find_account (mkDB (<[body_destination b :=
              mkAccount (acc_id dst) (user_id dst) (js_add (balance dst) (body_amount b))]>
            (<[body_source b := mkAccount (acc_id src) (user_id src)
                                  (js_sub (balance src) (body_amount b))]> (bank_accounts d)))
            (<[next_tx_id d := mkTransaction (next_tx_id d) (body_source b)
                                 (body_destination b) (body_amount b)]> (transactions d))
            (next_tx_id d + 1)) (body_destination b) =
          Some (mkAccount (acc_id dst) (user_id dst) (js_add (balance dst) (body_amount b)))).
  { unfold find_account. simpl. by rewrite lookup_insert_eq. }
  split; [reflexivity|]. split; [simpl; by rewrite lookup_insert_eq|]. split.
  - apply (proj1 (list_user_transactions_elem _ c)). split.
    + exists (next_tx_id d). simpl. by rewrite lookup_insert_eq.
    + left. simpl. rewrite Hsrc. eexists. split; [reflexivity|]. simpl. done.
  - split.
    + unfold get_transaction. cbn [transactions tx_id].
      rewrite lookup_insert_eq. cbn [source_account_id destination_account_id].
      rewrite Hsrc, Hdst. cbn [user_id].
      rewrite Hown, Z.eqb_refl. reflexivity.
    + intros r. unfold get_transaction. cbn [transactions tx_id].
      rewrite lookup_insert_eq. cbn [source_account_id destination_account_id].
      rewrite Hsrc, Hdst. cbn [user_id caller_id].
      rewrite Z.eqb_refl, andb_false_r, andb_false_l. reflexivity.
Qed.

Lemma map_values_elem {A} (m : gmap Z A) x :
  x ∈ (map_to_list m).*2 <-> exists k, m !! k = Some x.
Proof.
  rewrite list_elem_of_fmap. split.
  - intros [[k y] [-> Hin]]. exists k. by apply elem_of_map_to_list.
  - intros [k Hk]. exists (k, x). split; [done|]. by apply elem_of_map_to_list.
Qed.

Lemma account_numbers_unique_check s :
  map_Forall (fun k1 d1 => map_Forall (fun k2 d2 =>
      bank_account_number d1 = bank_account_number d2 -> k1 = k2)
    (account_details s)) (account_details s) ->
  account_numbers_unique s.
Proof.
  intros Hm k1 k2 d1 d2 H1 H2.
  exact (map_Forall_lookup_1 _ _ _ _ (map_Forall_lookup_1 _ _ _ _ Hm H1) H2).
Qed.

Lemma emails_unique_check s :
  map_Forall (fun k1 u1 => map_Forall (fun k2 u2 => email u1 = email u2 -> k1 = k2)
    (users s)) (users s) ->
  emails_unique s.
Proof.
  intros Hm k1 k2 u1 u2 H1 H2.
  exact (map_Forall_lookup_1 _ _ _ _ (map_Forall_lookup_1 _ _ _ _ Hm H1) H2).
Qed.

Section ApiProps.
Context `{Collaborators}.

Lemma account_number_taken_false s n :
  account_number_taken s n = false <->
  forall k dt, account_details s !! k = Some dt -> bank_account_number dt <> n.
Proof.
  unfold account_number_taken. rewrite <- not_true_iff_false, existsb_exists.
  split.
  - intros Hn k dt Hk He. apply Hn. exists dt. split.
    + apply list_elem_of_In, map_values_elem. by exists k.
    + by apply String.eqb_eq.
  - intros Hall [dt [Hin Heq]].
    apply list_elem_of_In, map_values_elem in Hin as [k Hk].
    apply String.eqb_eq in Heq. exact (Hall k dt Hk Heq).
Qed.

(** [POST /accounts] and [DELETE /accounts/:id] keep account numbers
    unique and balances non-negative. *)
Theorem account_admin_preserves_invariants fault s v bal fault' accId :
  account_numbers_unique s -> balances_nonneg (core s) ->
  account_numbers_unique (create_account fault s v bal).1 /\
  balances_nonneg (core (create_account fault s v bal).1) /\
  account_numbers_unique (delete_account fault' s accId).1 /\
  balances_nonneg (core (delete_account fault' s accId).1).
Proof.
  intros Hun Hnn. split; [|split; [|split]].
  - unfold create_account.
    destruct (validateAccount v); [|exact Hun].
    destruct bal as [b|]; [|exact Hun].
    destruct (b <? 0); [exact Hun|].
    destruct fault; [exact Hun|].
    destruct (account_number_taken _ _) eqn:Ht; [exact Hun|].
    destruct (users s !! ad_user_id v); [|exact Hun].
    pose proof (proj1 (account_number_taken_false _ _) Ht) as Hfree.
    intros k1 k2 d1 d2. simpl. rewrite !lookup_insert_Some.
    intros [[<- <-]|[Hne1 H1]] [[<- <-]|[Hne2 H2]]; simpl; intros Heq.
    + done.
    + by destruct (Hfree _ _ H2).
    + by destruct (Hfree _ _ H1).
    + exact (Hun _ _ _ _ H1 H2 Heq).
  - unfold create_account.
    destruct (validateAccount v); [|exact Hnn].
    destruct bal as [b|]; [|exact Hnn].
    destruct (b <? 0) eqn:Hb; [exact Hnn|].
    destruct fault; [exact Hnn|].
    destruct (account_number_taken _ _); [exact Hnn|].
    destruct (users s !! ad_user_id v); [|exact Hnn].
    apply Z.ltb_ge in Hb. apply map_Forall_insert_2; [simpl; lia|exact Hnn].
  - unfold delete_account.
    destruct fault'; [exact Hun|].
    destruct (find_account _ _); [|exact Hun].
    intros k1 k2 d1 d2. simpl. rewrite !lookup_delete_Some.
    intros [_ H1] [_ H2]. exact (Hun _ _ _ _ H1 H2).
  - unfold delete_account.
    destruct fault'; [exact Hnn|].
    destruct (find_account _ _); [|exact Hnn].
    apply map_Forall_delete, Hnn.
Qed.

(** [DELETE /accounts/:id]: 404 exactly when the account is missing, and
    then nothing changes; after a deletion no caller, admin or not, can
    read the account, and the other accounts and the users are as they
    were. *)
Theorem delete_account_spec fault s accId s' r :
  delete_account fault s accId = (s', r) ->
  match r with
  | DA_Deleted a =>
      fault = false /\ find_account (core s) accId = Some a /\
      (forall c, get_account (core s') c accId = ReadNotFound) /\
      (forall k, k <> accId -> find_account (core s') k = find_account (core s) k) /\
      users s' = users s
  | DA_NotFound => fault = false /\ find_account (core s) accId = None /\ s' = s
  | DA_InternalError => fault = true /\ s' = s
  end.
Proof.
  unfold delete_account. intros Hd.
  destruct fault; [by injection Hd as <- <-|].
  destruct (find_account (core s) accId) as [a|] eqn:Ha; [|by injection Hd as <- <-].
  injection Hd as <- <-. split; [done|]. split; [done|]. split; [|split].
  - intros c. unfold get_account, find_account. simpl. by rewrite lookup_delete_eq.
  - intros k Hk. unfold find_account. simpl. by rewrite lookup_delete_ne.
  - done.
Qed.

Lemma find_user_by_email_Some s e u :
  find_user_by_email s e = Some u ->
  (exists k, users s !! k = Some u) /\ email u = e.
Proof.
  unfold find_user_by_email.
  destruct (filter _ _) as [|u' l] eqn:Hf; [discriminate|]. intros [= <-].
  assert (Hin : u' ∈ filter (fun u => String.eqb (email u) e) (map_to_list (users s)).*2)
    by (rewrite Hf; left).
  apply list_elem_of_filter in Hin as [Hp Hin]. apply Is_true_true in Hp.
  apply String.eqb_eq in Hp. apply map_values_elem in Hin. done.
Qed.

Lemma find_user_by_email_None s e :
  find_user_by_email s e = None <->
  forall k u, users s !! k = Some u -> email u <> e.
Proof.
  unfold find_user_by_email.
  destruct (filter _ _) as [|u' l] eqn:Hf; simpl; split.
  - intros _ k u Hk He.
    assert (Hin : u ∈ filter (fun u => String.eqb (email u) e) (map_to_list (users s)).*2).
    { apply list_elem_of_filter. split.
      - apply Is_true_true, String.eqb_eq, He.
      - apply map_values_elem. by exists k. }
    rewrite Hf in Hin. by inversion Hin.
  - done.
  - discriminate.
  - intros Hall.
    assert (Hin : u' ∈ filter (fun u => String.eqb (email u) e) (map_to_list (users s)).*2)
      by (rewrite Hf; left).
    apply list_elem_of_filter in Hin as [Hp Hin]. apply Is_true_true in Hp.
    apply String.eqb_eq in Hp. apply map_values_elem in Hin as [k Hk].
    by destruct (Hall k u' Hk Hp).
Qed.

Lemma find_user_by_email_single s e u k :
  users s !! k = Some u -> email u = e ->
  (forall k' u', users s !! k' = Some u' -> email u' = e -> k' = k) ->
  find_user_by_email s e = Some u.
Proof.
  intros Hk He Hone.
  destruct (find_user_by_email s e) as [u'|] eqn:Hf.
  - apply find_user_by_email_Some in Hf as [[k' Hk'] He'].
    rewrite (Hone k' u' Hk' He') in Hk'. congruence.
  - apply find_user_by_email_None with (k := k) (u := u) in Hf; done.
Qed.

(** [POST /auth/register] (and [POST /users]) keeps e-mail addresses
    unique.  A new user gets the next user id, the hash of the password
    (never the password as sent) and the default role, and only when no
    user has the e-mail address; 409 answers exactly a taken address; no
    answer touches the accounts or transactions, and every answer other
    than 201 leaves the store as it was. *)
Theorem register_spec fault salt s v s' r :
  emails_unique s -> register fault salt s v = (s', r) ->
  emails_unique s' /\
  match r with
  | Reg_Created u =>
      u = mkUser (next_user_id s) (ud_name v) (ud_email v)
                 (bcrypt_hash salt (ud_password v)) user_role_default /\
      users s' !! u_id u = Some u /\
      (forall k u', users s !! k = Some u' -> email u' <> ud_email v) /\
      core s' = core s /\ account_details s' = account_details s
  | Reg_EmailTaken =>
      (exists k u', users s !! k = Some u' /\ email u' = ud_email v) /\ s' = s
  | _ => s' = s
  end.
Proof.
  unfold register. intros Hun Hr.
  destruct (validateUser v); [|injection Hr as <- <-; done].
  destruct fault; [injection Hr as <- <-; done|].
  destruct (find_user_by_email s (ud_email v)) as [u0|] eqn:Hf.
  - injection Hr as <- <-. split; [done|]. split; [|done].
    apply find_user_by_email_Some in Hf as [[k Hk] He]. by exists k, u0.
  - injection Hr as <- <-. rewrite find_user_by_email_None in Hf.
    split; [|split; [done|]; split; [simpl; by rewrite lookup_insert_eq|done]].
    intros k1 k2 u1 u2. simpl. rewrite !lookup_insert_Some.
    intros [[<- <-]|[Hne1 H1]] [[<- <-]|[Hne2 H2]]; simpl; intros Heq.
    + done.
    + by destruct (Hf _ _ H2).
    + by destruct (Hf _ _ H1).
    + exact (Hun _ _ _ _ H1 H2 Heq).
Qed.

(** [POST /auth/login] over a store with unique e-mail addresses: the
    login succeeds exactly for a stored user with the given address whose
    password hash matches, and the token is the signed user; a wrong
    password and an unknown address get the same answer. *)
Theorem login_spec s cr :
  emails_unique s ->
  (forall u tok, login s cr = Login_Ok u tok <->
     validateCredentials cr = true /\ (exists k, users s !! k = Some u) /\
     email u = cr_email cr /\ bcrypt_compare (cr_password cr) (password u) = true /\
     tok = jwt_sign u) /\
  (login s cr = Login_Invalid <->
     validateCredentials cr = true /\
     forall k u, users s !! k = Some u -> email u = cr_email cr ->
       bcrypt_compare (cr_password cr) (password u) = false).
Proof.
  intros Hun.
  assert (Huniq : forall k u, users s !! k = Some u -> email u = cr_email cr ->
                    find_user_by_email s (cr_email cr) = Some u).
  { intros k u Hk He. apply (find_user_by_email_single s _ u k Hk He).
    intros k' u' Hk' He'. apply (Hun k' k u' u Hk' Hk). congruence. }
  unfold login. destruct (validateCredentials cr) eqn:Hv; simpl.
  - destruct (find_user_by_email s (cr_email cr)) as [u0|] eqn:Hf.
    + pose proof (find_user_by_email_Some _ _ _ Hf) as [[k0 Hk0] He0].
      destruct (bcrypt_compare (cr_password cr) (password u0)) eqn:Hc; simpl.
      * split.
        -- intros u tok. split.
           ++ intros [= <- <-]. eauto 10.
           ++ intros (_ & [k Hk] & He & _ & ->).
              pose proof (Huniq k u Hk He) as E. by injection E as ->.
        -- split; [discriminate|]. intros [_ Hall].
           rewrite (Hall k0 u0 Hk0 He0) in Hc. discriminate.
      * split.
        -- intros u tok. split; [discriminate|].
           intros (_ & [k Hk] & He & Hc' & _).
           pose proof (Huniq k u Hk He) as E. injection E as ->. congruence.
        -- split; [|done]. intros _. split; [done|].
           intros k u Hk He. pose proof (Huniq k u Hk He) as E.
           by injection E as ->.
    + pose proof (proj1 (find_user_by_email_None _ _) Hf) as Hnone. split.
      * intros u tok. split; [discriminate|].
        intros (_ & [k Hk] & He & _). by destruct (Hnone k u Hk He).
      * split; [|done]. intros _. split; [done|].
        intros k u Hk He. by destruct (Hnone k u Hk He).
  - split.
    + intros u tok. split; [discriminate|]. by intros [? _].
    + split; [discriminate|]. by intros [? _].
Qed.

(** Register, then log in with the same e-mail address and password: the
    login succeeds as the new user, provided the credentials validate and
    the password matches its own hash. *)
Theorem register_then_login fault salt s v s' u :
  register fault salt s v = (s', Reg_Created u) ->
  validateCredentials (mkCredentials (ud_email v) (ud_password v)) = true ->
  bcrypt_compare (ud_password v) (bcrypt_hash salt (ud_password v)) = true ->
  login s' (mkCredentials (ud_email v) (ud_password v)) = Login_Ok u (jwt_sign u).
Proof.
  unfold register. intros Hr Hv Hc.
  destruct (validateUser v); [|discriminate].
  destruct fault; [discriminate|].
  destruct (find_user_by_email s (ud_email v)) as [u0|] eqn:Hf; [discriminate|].
  injection Hr as <- <-. rewrite find_user_by_email_None in Hf.
  unfold login. rewrite Hv. simpl.
  erewrite (find_user_by_email_single _ _ _ (next_user_id s)).
  2: { simpl. by rewrite lookup_insert_eq. }
  - cbn [password]. rewrite Hc. reflexivity.
  - done.
  - intros k' u'. simpl. rewrite lookup_insert_Some.
    intros [[<- _]|[_ Hk']] He; [done|]. by destruct (Hf _ _ Hk' He).
Qed.

(** A user who has just registered, logged in and sent the token back
    does not get through the admin gate, as long as the default role is
    not "admin" and the token decodes to the user's id and role. *)
Theorem registered_user_not_admin fault salt s v s' u cr tok :
  register fault salt s v = (s', Reg_Created u) ->
  login s' cr = Login_Ok u tok ->
  jwt_verify tok = Some (mkCaller (u_id u) (user_role u)) ->
  user_role_default <> "admin" ->
  forall c, adminMiddleware (Some tok) <> GatePass c.
Proof.
  intros Hr _ Hv Hdef c.
  assert (Hrole : user_role u = user_role_default).
  { revert Hr. unfold register.
    destruct (validateUser v); [|discriminate].
    destruct fault; [discriminate|].
    destruct (find_user_by_email s (ud_email v)); [discriminate|].
    by intros [= _ <-]. }
  unfold adminMiddleware, authMiddleware.
  destruct (String.eqb tok ""); [discriminate|]. rewrite Hv. simpl.
  rewrite Hrole. destruct (String.eqb user_role_default "admin") eqn:E.
  - by apply String.eqb_eq in E.
  - discriminate.
Qed.

(** Register, log in, and send the token back to [GET /users]: the
    middleware accepts it and the answer is the new user with the profile
    sent at registration, as long as the token is not empty and decodes to
    the user's id and role. *)
Theorem register_login_get_user fault salt s v s' u cr tok :
  register fault salt s v = (s', Reg_Created u) ->
  login s' cr = Login_Ok u tok ->
  tok <> "" -> jwt_verify tok = Some (mkCaller (u_id u) (user_role u)) ->
  exists c, authMiddleware (Some tok) = GatePass c /\
    get_user s' c =
      User_Ok u (Some (mkProfile (ud_identity_type v) (ud_identity_number v)
                                 (ud_address v))).
Proof.
  unfold register. intros Hr _ Hne Hv.
  destruct (validateUser v); [|discriminate].
  destruct fault; [discriminate|].
  destruct (find_user_by_email s (ud_email v)); [discriminate|].
  injection Hr as <- <-.
  eexists. split.
  - unfold authMiddleware. apply String.eqb_neq in Hne. rewrite Hne, Hv.
    reflexivity.
  - unfold get_user. simpl. by rewrite !lookup_insert_eq.
Qed.

(** After [POST /accounts] answers 201 for a user, that user reads the new
    account back with [GET /accounts/:id] and finds it in [GET /accounts],
    and a well-formed database stays well-formed. *)
Theorem create_account_then_read fault s v bal s' uid r :
  create_account fault s v bal = (s', CA_Created uid) ->
  exists b, bal = Some b /\
    get_account (core s') (mkCaller uid r) (next_account_id s) =
      ReadOk (mkAccount (next_account_id s) uid b) /\
    mkAccount (next_account_id s) uid b ∈ list_user_accounts (core s') (mkCaller uid r) /\
    (db_wf (core s) -> db_wf (core s')).
Proof.
  unfold create_account. intros Hc.
  destruct (validateAccount v); [|discriminate].
  destruct bal as [b|]; [|discriminate].
  destruct (b <? 0); [discriminate|].
  destruct fault; [discriminate|].
  destruct (account_number_taken _ _); [discriminate|].
  destruct (users s !! ad_user_id v); [|discriminate].
  injection Hc as <- <-. simpl.
  set (id := next_account_id s).
  set (a := mkAccount id (ad_user_id v) b).
  exists b. split; [done|]. split.
  { unfold get_account, find_account. simpl. rewrite lookup_insert_eq.
    simpl. by rewrite Z.eqb_refl. }
  split.
  { unfold list_user_accounts. apply list_elem_of_filter. split.
    - simpl. by rewrite Z.eqb_refl.
    - apply list_elem_of_fmap. exists (id, a). split; [done|].
      apply elem_of_map_to_list. simpl. apply lookup_insert_eq. }
  intros [Htx Hacc]. split; simpl.
  - eapply map_Forall_impl; [exact Htx|].
    intros k tx (Hk & Hlt & [x Hs] & [y Ht]). unfold find_account in *. simpl.
    split; [done|]. split; [done|].
    split; apply lookup_insert_is_Some'; right; by eexists.
  - apply map_Forall_insert_2; [done|exact Hacc].
Qed.

End ApiProps.

(** ** The properties above on concrete stores *)

#[local] Existing Instance test_collaborators.

Lemma list_user_transactions_readable_witness :
  let d := (transfer (transfer db0 user1 (mkBody 1 2 200)).1 user2 (mkBody 2 1 50)).1 in
  db_wf d /\ mkTransaction 2 2 1 50 ∈ list_user_transactions d user1 /\
  get_transaction d user1 2 = ReadOk (mkTransaction 2 2 1 50).
Proof.
  intros d.
  assert (Hwf : db_wf d)
    by (split; apply (bool_decide_unpack _); vm_compute; reflexivity).
  assert (Hin : mkTransaction 2 2 1 50 ∈ list_user_transactions d user1)
    by (apply (bool_decide_unpack _); vm_compute; reflexivity).
  split; [exact Hwf|]. split; [exact Hin|].
  exact (list_user_transactions_readable d user1 (mkTransaction 2 2 1 50) Hwf Hin).
Defined.

Lemma list_user_accounts_spec_witness :
  db_wf db0 /\ acc_A ∈ list_user_accounts db0 user1 /\
  get_account db0 user1 1 = ReadOk acc_A.
Proof.
  assert (Hwf : db_wf db0)
    by (split; apply (bool_decide_unpack _); vm_compute; reflexivity).
  assert (Hin : acc_A ∈ list_user_accounts db0 user1)
    by (apply (bool_decide_unpack _); vm_compute; reflexivity).
  split; [exact Hwf|]. split; [exact Hin|].
  exact (proj2 (list_user_accounts_spec db0 user1) Hwf acc_A Hin).
Defined.

Lemma transfers_keep_db_wf_witness :
  db_wf race_db /\
  db_wf (db (run_schedule
    (mkConfig race_db (map (fun '(c, b) => start c b)
                         [(user1, race_body); (user1, race_body)]))
    race_schedule)).
Proof.
  assert (Hwf : db_wf race_db)
    by (split; apply (bool_decide_unpack _); vm_compute; reflexivity).
  split; [exact Hwf|].
  exact (transfers_keep_db_wf race_db [(user1, race_body); (user1, race_body)]
           race_schedule Hwf).
Defined.

Lemma transfer_created_visible_witness :
  let b := mkBody 1 2 200 in
  let d' := (transfer db0 user1 b).1 in
  transfer_with [] db0 user1 b =
    (d', Created (mkTransaction 1 1 2 200) (mkAccount 1 1 300) (mkAccount 2 2 300)) /\
  get_transaction d' user2 1 = ReadOk (mkTransaction 1 1 2 200).
Proof.
  intros b d'.
  assert (H : transfer_with [] db0 user1 b =
    (d', Created (mkTransaction 1 1 2 200) (mkAccount 1 1 300) (mkAccount 2 2 300)))
    by (vm_compute; reflexivity).
  split; [exact H|].
  exact (proj2 (proj2 (proj2 (proj2
           (transfer_created_visible [] db0 user1 b d' _ _ _ H)))) "customer").
Defined.

Lemma account_admin_preserves_invariants_witness :
  account_numbers_unique store0 /\ balances_nonneg (core store0) /\
  account_numbers_unique (create_account false store0 (mkAccountData 2 "BRI" "3333") (Some 0)).1 /\
  balances_nonneg (core (delete_account false store0 2).1).
Proof.
  assert (Hun : account_numbers_unique store0)
    by (apply account_numbers_unique_check, (bool_decide_unpack _); vm_compute; reflexivity).
  assert (Hnn : balances_nonneg (core store0))
    by (apply (bool_decide_unpack _); vm_compute; reflexivity).
  destruct (account_admin_preserves_invariants false store0
              (mkAccountData 2 "BRI" "3333") (Some 0) false 2 Hun Hnn)
    as (H1 & _ & _ & H4).
  repeat split; assumption.
Defined.

Lemma delete_account_spec_witness :
  let s' := (delete_account false store0 1).1 in
  delete_account false store0 1 = (s', DA_Deleted acc_A) /\
  get_account (core s') (mkCaller 2 "admin") 1 = ReadNotFound.
Proof.
  intros s'.
  assert (H : delete_account false store0 1 = (s', DA_Deleted acc_A))
    by (vm_compute; reflexivity).
  split; [exact H|].
  exact (proj1 (proj2 (proj2 (delete_account_spec false store0 1 s' _ H)))
           (mkCaller 2 "admin")).
Defined.

Lemma register_spec_witness :
  let s' := (register false 7 store0 new_user).1 in
  let u := mkUser 3 "Cid" "cid@example.com" "hash:pw3" "customer" in
  emails_unique store0 /\
  register false 7 store0 new_user = (s', Reg_Created u) /\
  emails_unique s'.
Proof.
  intros s' u.
  assert (Hun : emails_unique store0)
    by (apply emails_unique_check, (bool_decide_unpack _); vm_compute; reflexivity).
  assert (H : register false 7 store0 new_user = (s', Reg_Created u))
    by (vm_compute; reflexivity).
  split; [exact Hun|]. split; [exact H|].
  exact (proj1 (register_spec false 7 store0 new_user s' _ Hun H)).
Defined.

Lemma login_spec_witness :
  let ann := mkUser 1 "Ann" "ann@example.com" "hash:pw1" "customer" in
  emails_unique store0 /\
  login store0 (mkCredentials "ann@example.com" "pw1") = Login_Ok ann "token-other".
Proof.
  intros ann.
  assert (Hun : emails_unique store0)
    by (apply emails_unique_check, (bool_decide_unpack _); vm_compute; reflexivity).
  split; [exact Hun|].
  apply (proj1 (login_spec store0 (mkCredentials "ann@example.com" "pw1") Hun)).
  split; [reflexivity|]. split; [exists 1; reflexivity|].
  split; [reflexivity|]. split; [vm_compute; reflexivity|reflexivity].
Defined.

Lemma register_then_login_witness :
  let s' := (register false 7 store0 new_user).1 in
  let u := mkUser 3 "Cid" "cid@example.com" "hash:pw3" "customer" in
  register false 7 store0 new_user = (s', Reg_Created u) /\
  login s' (mkCredentials "cid@example.com" "pw3") = Login_Ok u "token-3".
Proof.
  intros s' u.
  assert (H : register false 7 store0 new_user = (s', Reg_Created u))
    by (vm_compute; reflexivity).
  split; [exact H|].
  exact (register_then_login false 7 store0 new_user s' u H
           ltac:(reflexivity) ltac:(vm_compute; reflexivity)).
Defined.

Lemma registered_user_not_admin_witness :
  let s' := (register false 7 store0 new_user).1 in
  let u := mkUser 3 "Cid" "cid@example.com" "hash:pw3" "customer" in
  let cr := mkCredentials "cid@example.com" "pw3" in
  register false 7 store0 new_user = (s', Reg_Created u) /\
  login s' cr = Login_Ok u "token-3" /\
  forall c, adminMiddleware (Some "token-3") <> GatePass c.
Proof.
  intros s' u cr.
  assert (H : register false 7 store0 new_user = (s', Reg_Created u))
    by (vm_compute; reflexivity).
  assert (Hl : login s' cr = Login_Ok u "token-3") by (vm_compute; reflexivity).
  split; [exact H|]. split; [exact Hl|].
  exact (registered_user_not_admin false 7 store0 new_user s' u cr "token-3" H Hl
           ltac:(reflexivity) ltac:(discriminate)).
Defined.

Lemma register_login_get_user_witness :
  let s' := (register false 7 store0 new_user).1 in
  let u := mkUser 3 "Cid" "cid@example.com" "hash:pw3" "customer" in
  let cr := mkCredentials "cid@example.com" "pw3" in
  register false 7 store0 new_user = (s', Reg_Created u) /\
  login s' cr = Login_Ok u "token-3" /\
  exists c, authMiddleware (Some "token-3") = GatePass c /\
    get_user s' c = User_Ok u (Some (mkProfile "KTP" "123" "Street 1")).
Proof.
  intros s' u cr.
  assert (H : register false 7 store0 new_user = (s', Reg_Created u))
    by (vm_compute; reflexivity).
  assert (Hl : login s' cr = Login_Ok u "token-3") by (vm_compute; reflexivity).
  split; [exact H|]. split; [exact Hl|].
  exact (register_login_get_user false 7 store0 new_user s' u cr "token-3" H Hl
           ltac:(discriminate) ltac:(reflexivity)).
Defined.

Lemma create_account_then_read_witness :
  let v := mkAccountData 1 "BRI" "3333" in
  let s' := (create_account false store0 v (Some 50)).1 in
  create_account false store0 v (Some 50) = (s', CA_Created 1) /\
  db_wf (core store0) /\
  get_account (core s') (mkCaller 1 "customer") 3 = ReadOk (mkAccount 3 1 50) /\
  db_wf (core s').
Proof.
  intros v s'.
  assert (H : create_account false store0 v (Some 50) = (s', CA_Created 1))
    by (vm_compute; reflexivity).
  assert (Hwf : db_wf (core store0))
    by (split; apply (bool_decide_unpack _); vm_compute; reflexivity).
  split; [exact H|]. split; [exact Hwf|].
  destruct (create_account_then_read false store0 v (Some 50) s' 1 "customer" H)
    as (b & Hb & Hget & _ & Hkeep).
  injection Hb as <-. exact (conj Hget (Hkeep Hwf)).
Defined.
